(** * ReceiptMe backend: the aggregation and comparison logic of [server.js]

    A shallow embedding of the request handlers of [server.js] and proofs of
    the properties its specification states about them.

    Modelling conventions.
    - A JavaScript [Number] is [number]: [NaN], the two infinities, or a
      finite value carried as an exact rational.  Finite arithmetic is exact
      (binary rounding, overflow and the sign of zero are not represented).
    - A plain object used as a dictionary is [obj V]: its own properties in
      insertion order.  Properties inherited from [Object.prototype] are not
      represented.  [Object.keys], [Object.values], [Object.entries] and
      [for ... in] enumerate array-index keys first, in ascending order, and
      then the other keys in insertion order.
    - A [Set] of strings is the list of its members in insertion order.
    - [await]ed store calls either return or throw ([Exc]); a handler either
      sends a response or lets the exception escape ([outcome]). *)

From Stdlib Require Import QArith Qround Qabs ZArith List String Ascii Bool.
From Stdlib Require Import DecimalString Lia Lqa Permutation.
Import ListNotations.

Set Implicit Arguments.

Local Open Scope string_scope.
Local Open Scope Q_scope.

(** ** JavaScript numbers *)

Inductive number : Type :=
| NaN
| PInf
| NInf
| Fin (q : Q).

(** The infinity whose sign is that of a comparison with zero; the
    indeterminate forms give [NaN]. *)
Definition sign_inf (c : comparison) : number :=
  match c with
  | Gt => PInf
  | Lt => NInf
  | Eq => NaN
  end.

Definition js_neg (x : number) : number :=
  match x with
  | NaN => NaN
  | PInf => NInf
  | NInf => PInf
  | Fin q => Fin (- q)
  end.

(** [x + y] on numbers. *)
Definition js_add (x y : number) : number :=
  match x, y with
  | NaN, _ | _, NaN => NaN
  | PInf, NInf | NInf, PInf => NaN
  | PInf, _ | _, PInf => PInf
  | NInf, _ | _, NInf => NInf
  | Fin a, Fin b => Fin (a + b)
  end.

(** [x - y]. *)
Definition js_sub (x y : number) : number := js_add x (js_neg y).

(** [x * y]. *)
Definition js_mul (x y : number) : number :=
  match x, y with
  | NaN, _ | _, NaN => NaN
  | Fin a, Fin b => Fin (a * b)
  | Fin a, PInf | PInf, Fin a => sign_inf (a ?= 0)
  | Fin a, NInf | NInf, Fin a => sign_inf (0 ?= a)
  | PInf, PInf | NInf, NInf => PInf
  | PInf, NInf | NInf, PInf => NInf
  end.

(** [x / y]: a finite value over zero is an infinity of its sign, and [0 / 0]
    is [NaN]. *)
Definition js_div (x y : number) : number :=
  match x, y with
  | NaN, _ | _, NaN => NaN
  | Fin a, Fin b => if Qeq_bool b 0 then sign_inf (a ?= 0) else Fin (a / b)
  | Fin _, PInf | Fin _, NInf => Fin 0
  | PInf, Fin b => if Qle_bool 0 b then PInf else NInf
  | NInf, Fin b => if Qle_bool 0 b then NInf else PInf
  | PInf, PInf | PInf, NInf | NInf, PInf | NInf, NInf => NaN
  end.

(** [Math.round]: the nearest integer, ties towards positive infinity. *)
Definition Math_round (x : number) : number :=
  match x with
  | Fin q => Fin (inject_Z (Qfloor (q + (1 # 2))))
  | _ => x
  end.

(** [Math.abs]. *)
Definition Math_abs (x : number) : number :=
  match x with
  | NaN => NaN
  | PInf | NInf => PInf
  | Fin q => Fin (Qabs q)
  end.

(** [x > y]. *)
Definition js_gt (x y : number) : bool :=
  match x, y with
  | NaN, _ | _, NaN => false
  | Fin a, Fin b => negb (Qle_bool a b)
  | PInf, PInf => false
  | PInf, _ => true
  | _, PInf => false
  | NInf, _ => false
  | Fin _, NInf => true
  end.

(** [ToBoolean] of a number: [NaN] and zero are falsy. *)
Definition truthy (x : number) : bool :=
  match x with
  | NaN => false
  | Fin q => negb (Qeq_bool q 0)
  | _ => true
  end.

(** A property read is [None] when it yields [undefined]. *)
Definition truthy_opt (v : option number) : bool :=
  match v with
  | Some x => truthy x
  | None => false
  end.

(** [ToNumber]: [undefined] converts to [NaN]. *)
Definition to_number (v : option number) : number :=
  match v with
  | Some x => x
  | None => NaN
  end.

(** [v || 0] for a number-valued property read. *)
Definition or_zero (v : option number) : number :=
  match v with
  | Some x => if truthy x then x else Fin 0
  | None => Fin 0
  end.

(** [v || d] for a string-valued property read: [undefined] and the empty
    string are falsy. *)
Definition or_string (v : option string) (d : string) : string :=
  match v with
  | Some EmptyString => d
  | Some s => s
  | None => d
  end.

(** Equality of numbers as values: finite ones are compared as rationals. *)
Definition numeq (x y : number) : Prop :=
  match x, y with
  | Fin a, Fin b => a == b
  | NaN, NaN | PInf, PInf | NInf, NInf => True
  | _, _ => False
  end.

Definition is_finite (x : number) : bool :=
  match x with
  | Fin _ => true
  | _ => false
  end.

(** ** Objects used as dictionaries *)

Definition obj (V : Type) : Type := list (string * V).

(** [o[k]] as a read. *)
Fixpoint obj_get {V} (o : obj V) (k : string) : option V :=
  match o with
  | [] => None
  | (k', v) :: o' => if String.eqb k' k then Some v else obj_get o' k
  end.

(** [o[k] = v]: an existing property keeps its place, a new one goes last. *)
Fixpoint obj_set {V} (o : obj V) (k : string) (v : V) : obj V :=
  match o with
  | [] => [(k, v)]
  | (k', v') :: o' =>
      if String.eqb k' k then (k, v) :: o' else (k', v') :: obj_set o' k v
  end.

Definition digit_of (c : ascii) : option N :=
  let n := N_of_ascii c in
  if ((48 <=? n) && (n <=? 57))%N then Some (n - 48)%N else None.

Fixpoint digits_value (s : string) (acc : N) : option N :=
  match s with
  | EmptyString => Some acc
  | String c s' =>
      match digit_of c with
      | Some d => digits_value s' (10 * acc + d)%N
      | None => None
      end
  end.

(** A property key is an array index when it is the canonical decimal
    spelling of an integer below [2^32 - 1]. *)
Definition array_index (s : string) : option N :=
  match s with
  | EmptyString => None
  | String "0"%char EmptyString => Some 0%N
  | String "0"%char _ => None
  | _ =>
      match digits_value s 0 with
      | Some n => if (n <? 4294967295)%N then Some n else None
      | None => None
      end
  end.

Fixpoint insert_index {V} (n : N) (e : string * V)
    (l : list (N * (string * V))) : list (N * (string * V)) :=
  match l with
  | [] => [(n, e)]
  | (m, e') :: l' =>
      if (n <=? m)%N then (n, e) :: l else (m, e') :: insert_index n e l'
  end.

Fixpoint index_entries {V} (o : obj V) : list (N * (string * V)) :=
  match o with
  | [] => []
  | (k, v) :: o' =>
      match array_index k with
      | Some n => insert_index n (k, v) (index_entries o')
      | None => index_entries o'
      end
  end.

Definition named_entries {V} (o : obj V) : obj V :=
  filter (fun kv => match array_index (fst kv) with
                    | Some _ => false
                    | None => true
                    end) o.

Definition Object_entries {V} (o : obj V) : list (string * V) :=
  (map snd (index_entries o) ++ named_entries o)%list.

Definition Object_keys {V} (o : obj V) : list string :=
  map fst (Object_entries o).

Definition Object_values {V} (o : obj V) : list V :=
  map snd (Object_entries o).

(** ** Sets of strings *)

Definition str_set : Type := list string.

Definition set_has (s : str_set) (x : string) : bool :=
  existsb (String.eqb x) s.

(** [s.add(x)]. *)
Definition set_add (s : str_set) (x : string) : str_set :=
  if set_has s x then s else (s ++ [x])%list.

(** [new Set(xs)]. *)
Definition set_of_list (xs : list string) : str_set :=
  fold_left set_add xs [].

(** ** Exceptions *)

Inductive exn : Type :=
| StoreError (msg : string)
| ValidationError (path : string)
| DuplicateKey (key : string)
| AdapterError (msg : string)
| TypeError (msg : string).

Inductive Exc (A : Type) : Type :=
| Ok (a : A)
| Throw (e : exn).

Arguments Ok {A} a.
Arguments Throw {A} e.

Definition bind {A B} (m : Exc A) (f : A -> Exc B) : Exc B :=
  match m with
  | Ok a => f a
  | Throw e => Throw e
  end.

Notation "x <- m ;; k" := (bind m (fun x => k))
  (at level 61, m at next level, right associativity).

Notation "' pat <- m ;; k" :=
  (bind m (fun x => match x with pat => k end))
  (at level 61, pat pattern, m at next level, right associativity).

(** A loop whose body may throw. *)
Fixpoint foldM {A B} (f : A -> B -> Exc A) (l : list B) (a : A) : Exc A :=
  match l with
  | [] => Ok a
  | b :: l' => a' <- f a b ;; foldM f l' a'
  end.

(** ** The stored documents *)

(** [receiptSchema]. *)
Module Receipt.

Record item : Type := Item {
  itemId : option string;
  name : option string;
  category : option string;
  price : option number
}.

Record t : Type := Make {
  googleId : string;
  receiptId : option string;
  vendor : option string;
  date : option Z;
  items : list item
}.

End Receipt.

(** The entries of the spending summary. *)
Module Summary.

Record entry : Type := Entry {
  name : string;
  amount : number;
  percentage : number
}.

End Summary.

(** The entries of the comparison summary. *)
Module Comparison.

Record entry : Type := Entry {
  category : string;
  difference : number;
  isHigher : bool
}.

End Comparison.

(** ** GET /spending-summary: the category aggregation *)

Module SpendingSummary.

(** The body of the inner [forEach]. *)
Definition add_item (categoryTotals : obj number) (item : Receipt.item)
    : obj number :=
  let category :=
    or_string (Receipt.category item) "Other (Type Category)" in
  let categoryTotals :=
    if negb (truthy_opt (obj_get categoryTotals category))
    then obj_set categoryTotals category (Fin 0)
    else categoryTotals in
  obj_set categoryTotals category
    (js_add (to_number (obj_get categoryTotals category))
            (to_number (Receipt.price item))).

Definition categoryTotals (receipts : list Receipt.t) : obj number :=
  fold_left
    (fun acc receipt => fold_left add_item (Receipt.items receipt) acc)
    receipts [].

Definition totalSpent (categoryTotals : obj number) : number :=
  fold_left (fun sum val => js_add sum val)
    (Object_values categoryTotals) (Fin 0).

Definition summary (receipts : list Receipt.t) : list Summary.entry :=
  let categoryTotals := categoryTotals receipts in
  let totalSpent := totalSpent categoryTotals in
  map (fun '(name, amount) =>
         Summary.Entry name amount
           (Math_round (js_mul (js_div amount totalSpent) (Fin 100))))
      (Object_entries categoryTotals).

End SpendingSummary.

(** ** GET /api/ai-summary: the category aggregation before the adapter call *)

Module AiSummary.

(** The body of the inner [forEach]. *)
Definition add_item (categoryTotals : obj number) (item : Receipt.item)
    : obj number :=
  let category :=
    or_string (Receipt.category item) "Other (Type Category)" in
  let categoryTotals :=
    if negb (truthy_opt (obj_get categoryTotals category))
    then obj_set categoryTotals category (Fin 0)
    else categoryTotals in
  obj_set categoryTotals category
    (js_add (to_number (obj_get categoryTotals category))
            (to_number (Receipt.price item))).

Definition categoryTotals (receipts : list Receipt.t) : obj number :=
  fold_left
    (fun acc receipt => fold_left add_item (Receipt.items receipt) acc)
    receipts [].

Definition totalSpent (categoryTotals : obj number) : number :=
  fold_left (fun sum val => js_add sum val)
    (Object_values categoryTotals) (Fin 0).

Definition receiptSummary (receipts : list Receipt.t)
    : list Summary.entry :=
  let categoryTotals := categoryTotals receipts in
  let totalSpent := totalSpent categoryTotals in
  map (fun '(name, amount) =>
         Summary.Entry name amount
           (Math_round (js_mul (js_div amount totalSpent) (Fin 100))))
      (Object_entries categoryTotals).

End AiSummary.

(** ** GET /comparison-summary: the peer comparison *)

Module ComparisonSummary.

(** The owner's totals: the body of the inner [forEach] over
    [userReceipts]. *)
Definition add_user_item (userTotals : obj number) (item : Receipt.item)
    : obj number :=
  let cat := or_string (Receipt.category item) "Other (Type Category)" in
  obj_set userTotals cat
    (js_add (or_zero (obj_get userTotals cat))
            (to_number (Receipt.price item))).

Definition userTotals (userReceipts : list Receipt.t) : obj number :=
  fold_left
    (fun acc receipt => fold_left add_user_item (Receipt.items receipt) acc)
    userReceipts [].

(** The population scan keeps [allTotals] and [usersByCategory]. *)
Definition population : Type := (obj number * obj str_set)%type.

(** The body of the inner [forEach] over [allReceipts]; the set of a
    category is created on its first item and then extended in place. *)
Definition add_population_item (uid : string) (st : population)
    (item : Receipt.item) : population :=
  let '(allTotals, usersByCategory) := st in
  let cat := or_string (Receipt.category item) "Other (Type Category)" in
  let allTotals :=
    obj_set allTotals cat
      (js_add (or_zero (obj_get allTotals cat))
              (to_number (Receipt.price item))) in
  let users :=
    match obj_get usersByCategory cat with
    | Some s => s
    | None => []
    end in
  (allTotals, obj_set usersByCategory cat (set_add users uid)).

Definition scan (allReceipts : list Receipt.t) : population :=
  fold_left
    (fun st receipt =>
       let uid := Receipt.googleId receipt in
       fold_left (add_population_item uid) (Receipt.items receipt) st)
    allReceipts ([], []).

(** The body of the [for ... in] loop; reading [size] off a missing set
    throws. *)
Definition add_average (allTotals : obj number)
    (usersByCategory : obj str_set) (averages : obj number) (cat : string)
    : Exc (obj number) :=
  match obj_get usersByCategory cat with
  | Some s =>
      Ok (obj_set averages cat
            (js_div (to_number (obj_get allTotals cat))
                    (Fin (inject_Z (Z.of_nat (List.length s))))))
  | None => Throw (TypeError "Cannot read properties of undefined")
  end.

Definition averages (st : population) : Exc (obj number) :=
  let '(allTotals, usersByCategory) := st in
  foldM (add_average allTotals usersByCategory) (Object_keys allTotals) [].

Definition allCategories (userTotals averages : obj number) : str_set :=
  set_of_list (Object_keys userTotals ++ Object_keys averages)%list.

(** The body of the final [forEach]. *)
Definition push_entry (userTotals averages : obj number)
    (comparison : list Comparison.entry) (cat : string)
    : list Comparison.entry :=
  let userSpent := or_zero (obj_get userTotals cat) in
  let avgSpent := or_zero (obj_get averages cat) in
  let diff := Math_round (js_sub userSpent avgSpent) in
  (comparison
   ++ [Comparison.Entry cat (Math_abs diff) (js_gt diff (Fin 0))])%list.

Definition comparison (userTotals averages : obj number)
    : list Comparison.entry :=
  fold_left (push_entry userTotals averages)
    (allCategories userTotals averages) [].

(** The computation of the handler between its two queries and its
    response. *)
Definition compare (userReceipts allReceipts : list Receipt.t)
    : Exc (list Comparison.entry) :=
  let userTotals := userTotals userReceipts in
  averages <- averages (scan allReceipts) ;;
  Ok (comparison userTotals averages).

End ComparisonSummary.

(** ** POST /api/expenses: the line items of a manual entry *)

(** The values a JSON body gives to [item.amount]. *)
Inductive jsval : Type :=
| JUndefined
| JNumber (n : number)
| JString (s : string).

(** White space that [parseFloat] skips, among the code units below 256. *)
Definition is_space (c : ascii) : bool :=
  let n := N_of_ascii c in
  ((n =? 9) || (n =? 10) || (n =? 11) || (n =? 12) || (n =? 13) ||
   (n =? 32) || (n =? 160))%N.

Fixpoint trim_start (s : string) : string :=
  match s with
  | String c s' => if is_space c then trim_start s' else s
  | EmptyString => s
  end.

(** The longest run of decimal digits at the start of [s], and the rest. *)
Fixpoint read_digits (s : string) : list N * string :=
  match s with
  | String c s' =>
      match digit_of c with
      | Some d => let (ds, r) := read_digits s' in (d :: ds, r)
      | None => ([], s)
      end
  | EmptyString => ([], s)
  end.

Definition digits_to_N (ds : list N) : N :=
  fold_left (fun acc d => 10 * acc + d)%N ds 0%N.

(** The exponent part: [e] or [E], an optional sign and at least one digit;
    anything else is not part of the literal. *)
Definition read_exponent (s : string) : Z :=
  match s with
  | String c r =>
      if (Ascii.eqb c "e" || Ascii.eqb c "E")%bool then
        let '(sgn, r') :=
          match r with
          | String "+"%char r' => (1%Z, r')
          | String "-"%char r' => ((-1)%Z, r')
          | _ => (1%Z, r)
          end in
        match read_digits r' with
        | ([], _) => 0%Z
        | (ds, _) => (sgn * Z.of_N (digits_to_N ds))%Z
        end
      else 0%Z
  | EmptyString => 0%Z
  end.

(** The longest prefix that is an unsigned decimal literal, as a number. *)
Definition parse_unsigned (s : string) : option number :=
  if String.prefix "Infinity" s then Some PInf
  else
    let (ip, r1) := read_digits s in
    let (fp, r2) :=
      match r1 with
      | String "."%char r => read_digits r
      | _ => ([], r1)
      end in
    match (ip ++ fp)%list with
    | [] => None
    | ds =>
        Some (Fin (inject_Z (Z.of_N (digits_to_N ds))
                   / inject_Z (10 ^ Z.of_nat (List.length fp))
                   * Qpower 10 (read_exponent r2)))
    end.

Definition parseFloat_string (s : string) : number :=
  let t := trim_start s in
  let '(negative, r) :=
    match t with
    | String "-"%char r => (true, r)
    | String "+"%char r => (false, r)
    | _ => (false, t)
    end in
  match parse_unsigned r with
  | Some v => if negative then js_neg v else v
  | None => NaN
  end.

(** [parseFloat]: the argument is converted to a string and its longest
    numeric prefix is read; a number comes back as itself. *)
Definition parseFloat (v : jsval) : number :=
  match v with
  | JUndefined => parseFloat_string "undefined"
  | JNumber n => n
  | JString s => parseFloat_string s
  end.

(** [n.toString()] for a non-negative integer. *)
Definition toString (n : N) : string :=
  NilEmpty.string_of_uint (N.to_uint n).

Module Expense.

(** An element of [req.body.items]. *)
Record item : Type := Item {
  description : option string;
  category : option string;
  amount : jsval
}.

(** The callback of [items.map]; [random] is the value of
    [Math.floor(Math.random() * 1e9)] at this call. *)
Definition map_item (random : N) (item : item) : Receipt.item :=
  {| Receipt.itemId := Some (toString random);
     Receipt.name := Some (or_string (description item) "Unknown");
     Receipt.category :=
       Some (or_string (category item) "Other (Type Category)");
     Receipt.price := Some (or_zero (Some (parseFloat (amount item)))) |}.

(** [items.map(...)]: the callback draws one random number per item, in
    order, starting at draw [k] of [random]. *)
Fixpoint map_items (random : nat -> N) (k : nat) (items : list item)
    : list Receipt.item :=
  match items with
  | [] => []
  | item :: items' =>
      map_item (random k) item :: map_items random (S k) items'
  end.

End Expense.

(** ** User profiles *)

(** [userSchema], with the timestamps the store maintains. *)
Module User.

Record t : Type := Make {
  googleId : string;
  email : string;
  firstName : option string;
  lastName : option string;
  picture : option string;
  age : option number;
  gender : option string;
  ethnicity : option string;
  maritalStatus : option string;
  children : option number;
  income : option number;
  location : option string;
  createdAt : Z;
  updatedAt : Z
}.

(** The fields [POST /api/users] reads off the body and passes to
    [new User]. *)
Record draft : Type := Draft {
  d_googleId : option string;
  d_email : option string;
  d_firstName : option string;
  d_lastName : option string;
  d_picture : option string
}.

(** The paths a body of [PUT /api/users/:googleId] may set. *)
Record patch : Type := Patch {
  p_googleId : option string;
  p_email : option string;
  p_firstName : option string;
  p_lastName : option string;
  p_picture : option string;
  p_age : option number;
  p_gender : option string;
  p_ethnicity : option string;
  p_maritalStatus : option string;
  p_children : option number;
  p_income : option number;
  p_location : option string
}.

End User.

(** ** The record store *)

(** The filter of a [Receipt.find]: an owner, a lower bound on the date. *)
Record receipt_query : Type := Query {
  q_googleId : option string;
  q_date_gte : option Z
}.

(** The store calls of [server.js]; each of them may throw. *)
Class Store (S : Type) : Type := {
  Receipt_find : S -> receipt_query -> Exc (list Receipt.t);
  Receipt_save : S -> Receipt.t -> Exc S;
  User_findOne : S -> option string -> Exc (option User.t);
  User_save : S -> Z -> User.draft -> Exc (User.t * S);
  User_findOneAndUpdate :
    S -> Z -> string -> User.patch -> Exc (option User.t * S)
}.

(** ** Responses *)

(** What the image parser returns for an upload. *)
Record receipt_data : Type := ReceiptData {
  rd_receiptId : option string;
  rd_vendor : option string;
  rd_date : option Z;
  rd_items : list Receipt.item
}.

Inductive body : Type :=
| Text (s : string)
| JsonError (error : string)
| Uploaded (parsed : receipt_data)
| SummaryList (summary : list Summary.entry)
| ReceiptList (receipts : list Receipt.t)
| ExpenseAdded (receipt : Receipt.t)
| ComparisonList (comparison : list Comparison.entry)
| Profile (user : User.t)
| AiText (summary : string).

Record response : Type := Response {
  status : nat;
  payload : body
}.

(** A handler sends a response, or an exception leaves it uncaught. *)
Inductive outcome : Type :=
| Responded (r : response)
| Escaped (e : exn).

(** [try { body } catch (err) { handler }]. *)
Definition try_catch (body : Exc response) (handler : exn -> response)
    : outcome :=
  match body with
  | Ok r => Responded r
  | Throw e => Responded (handler e)
  end.

(** The same around a body that writes to the store: a throw leaves the
    store as it was. *)
Definition try_catch_write {S} (s : S) (body : Exc (response * S))
    (handler : exn -> response) : outcome * S :=
  match body with
  | Ok (r, s') => (Responded r, s')
  | Throw e => (Responded (handler e), s)
  end.

(** A body with no [try] around it. *)
Definition no_catch (body : Exc response) : outcome :=
  match body with
  | Ok r => Responded r
  | Throw e => Escaped e
  end.

(** A string that passes [if (!x) ...]: present and not empty. *)
Definition present (v : option string) : option string :=
  match v with
  | Some EmptyString => None
  | Some s => Some s
  | None => None
  end.

(** [d.setDate(d.getDate() - n)] on a date in milliseconds, for days of
    twenty-four hours. *)
Definition days_before (now : Z) (n : Z) : Z := (now - n * 86400000)%Z.

(** ** The upload filter *)

Definition allowedMimeTypes : list string :=
  ["image/jpeg"; "image/png"; "image/webp"; "image/heic"; "image/heif"].

(** [fileFilter]: a file reaches POST /upload only when its declared type is
    allowed. *)
Definition fileFilter (mimetype : string) : bool :=
  existsb (String.eqb mimetype) allowedMimeTypes.

(** ** The handlers *)

Section Handlers.

Context {S : Type} {store : Store S}.
Variable file : Type.
Variable handleReceiptUpload : option file -> Exc receipt_data.
Variable generateAISpendingSummary : list Summary.entry -> Exc string.

(** POST /upload *)
Definition upload (s : S) (body_googleId : option string)
    (req_file : option file) : outcome * S :=
  try_catch_write s
    (match present body_googleId with
     | None => Ok (Response 400 (JsonError "Missing googleId"), s)
     | Some googleId =>
         receiptData <- handleReceiptUpload req_file ;;
         let receipt :=
           Receipt.Make googleId (rd_receiptId receiptData)
             (rd_vendor receiptData) (rd_date receiptData)
             (rd_items receiptData) in
         s' <- Receipt_save s receipt ;;
         Ok (Response 200 (Uploaded receiptData), s')
     end)
    (fun err => Response 500 (Text "Error processing receipt")).

(** GET /spending-summary *)
Definition spending_summary (s : S) (now : Z)
    (query_googleId : option string) : outcome :=
  try_catch
    (match present query_googleId with
     | None => Ok (Response 400 (Text "Missing googleId"))
     | Some googleId =>
         let thirtyDaysAgo := days_before now 30 in
         receipts <-
           Receipt_find s (Query (Some googleId) (Some thirtyDaysAgo)) ;;
         Ok (Response 200 (SummaryList (SpendingSummary.summary receipts)))
     end)
    (fun err => Response 500 (Text "Error generating summary")).

(** GET /api/receipts *)
Definition get_receipts (s : S) (query_googleId : option string)
    : outcome :=
  try_catch
    (match present query_googleId with
     | None => Ok (Response 400 (Text "Missing googleId"))
     | Some googleId =>
         receipts <- Receipt_find s (Query (Some googleId) None) ;;
         Ok (Response 200 (ReceiptList receipts))
     end)
    (fun err => Response 500 (Text "Error fetching receipts")).

(** POST /api/expenses; [items] is [None] when the body's [items] is not
    an array. *)
Definition post_expense (s : S) (now : Z) (random : nat -> N)
    (vendor : option string) (items : option (list Expense.item))
    (body_googleId : option string) : outcome * S :=
  try_catch_write s
    (match present body_googleId, present vendor, items with
     | Some googleId, Some vendor, Some (item :: items') =>
         let receiptId := toString (random 0%nat) in
         let receipt :=
           Receipt.Make googleId (Some receiptId) (Some vendor) (Some now)
             (Expense.map_items random 1 (item :: items')) in
         s' <- Receipt_save s receipt ;;
         Ok (Response 201 (ExpenseAdded receipt), s')
     | _, _, _ => Ok (Response 400 (JsonError "Invalid expense data"), s)
     end)
    (fun err => Response 500 (JsonError "Failed to save expense")).

(** PUT /api/users/:googleId *)
Definition put_user (s : S) (now : Z) (params_googleId : string)
    (req_body : User.patch) : outcome * S :=
  try_catch_write s
    ('(updatedUser, s') <-
       User_findOneAndUpdate s now params_googleId req_body ;;
     match updatedUser with
     | None => Ok (Response 404 (Text "User not found"), s')
     | Some user => Ok (Response 200 (Profile user), s')
     end)
    (fun err => Response 500 (Text "Server error")).

(** GET /comparison-summary: no [try] surrounds the body. *)
Definition comparison_summary (s : S) (now : Z)
    (query_googleId : option string) : outcome :=
  no_catch
    (match present query_googleId with
     | None => Ok (Response 400 (Text "Missing googleId"))
     | Some googleId =>
         let thirtyDaysAgo := days_before now 30 in
         userReceipts <-
           Receipt_find s (Query (Some googleId) (Some thirtyDaysAgo)) ;;
         let userTotals := ComparisonSummary.userTotals userReceipts in
         allReceipts <- Receipt_find s (Query None (Some thirtyDaysAgo)) ;;
         averages <-
           ComparisonSummary.averages (ComparisonSummary.scan allReceipts) ;;
         let comparison :=
           ComparisonSummary.comparison userTotals averages in
         Ok (Response 200 (ComparisonList comparison))
     end).

(** POST /api/users *)
Definition create_user (s : S) (now : Z) (req_body : User.draft)
    : outcome * S :=
  try_catch_write s
    (found <- User_findOne s (User.d_googleId req_body) ;;
     match found with
     | Some user => Ok (Response 201 (Profile user), s)
     | None =>
         '(user, s') <- User_save s now req_body ;;
         Ok (Response 201 (Profile user), s')
     end)
    (fun error => Response 500 (JsonError "Internal server error")).

(** GET /api/users/:googleId *)
Definition get_user (s : S) (googleId : string) : outcome :=
  try_catch
    (found <- User_findOne s (Some googleId) ;;
     match found with
     | None => Ok (Response 404 (JsonError "User not found"))
     | Some user => Ok (Response 200 (Profile user))
     end)
    (fun error => Response 500 (JsonError "Internal server error")).

(** GET /api/ai-summary *)
Definition ai_summary (s : S) (now : Z) (query_googleId : option string)
    : outcome :=
  try_catch
    (match present query_googleId with
     | None => Ok (Response 400 (JsonError "Missing googleId"))
     | Some googleId =>
         let thirtyDaysAgo := days_before now 30 in
         receipts <-
           Receipt_find s (Query (Some googleId) (Some thirtyDaysAgo)) ;;
         let receiptSummary := AiSummary.receiptSummary receipts in
         summary <- generateAISpendingSummary receiptSummary ;;
         Ok (Response 200 (AiText summary))
     end)
    (fun err => Response 500 (JsonError "Failed to generate AI summary")).

End Handlers.

(** ** An in-memory record store *)

Module MemStore.

Record t : Type := Make {
  connected : bool;
  receipts : list Receipt.t;
  users : list User.t
}.

Definition unavailable {A} : Exc A :=
  Throw (StoreError "the store is not reachable").

Definition matches (q : receipt_query) (r : Receipt.t) : bool :=
  match q_googleId q with
  | Some g => String.eqb (Receipt.googleId r) g
  | None => true
  end
  &&
  match q_date_gte q with
  | Some since =>
      match Receipt.date r with
      | Some d => (since <=? d)%Z
      | None => false
      end
  | None => true
  end.

Definition find (s : t) (q : receipt_query) : Exc (list Receipt.t) :=
  if connected s then Ok (filter (matches q) (receipts s)) else unavailable.

(** [googleId] is required. *)
Definition save_receipt (s : t) (r : Receipt.t) : Exc t :=
  if connected s then
    match Receipt.googleId r with
    | EmptyString => Throw (ValidationError "googleId")
    | _ => Ok (Make (connected s) (receipts s ++ [r])%list (users s))
    end
  else unavailable.

Definition owned_by (g : string) (u : User.t) : bool :=
  String.eqb (User.googleId u) g.

Definition findOne (s : t) (googleId : option string)
    : Exc (option User.t) :=
  if connected s then
    match googleId with
    | Some g => Ok (List.find (owned_by g) (users s))
    | None => Ok None
    end
  else unavailable.

(** [googleId] and [email] are required, and [googleId] is unique. *)
Definition save_user (s : t) (now : Z) (d : User.draft)
    : Exc (User.t * t) :=
  if connected s then
    match present (User.d_googleId d), present (User.d_email d) with
    | None, _ => Throw (ValidationError "googleId")
    | _, None => Throw (ValidationError "email")
    | Some g, Some e =>
        if existsb (owned_by g) (users s) then Throw (DuplicateKey g)
        else
          let user :=
            User.Make g e (User.d_firstName d) (User.d_lastName d)
              (User.d_picture d) None None None None None None None
              now now in
          Ok (user, Make (connected s) (receipts s) (users s ++ [user])%list)
    end
  else unavailable.

Definition set_path {A} (new : option A) (old : A) : A :=
  match new with
  | Some v => v
  | None => old
  end.

Definition set_optional {A} (new : option A) (old : option A) : option A :=
  match new with
  | Some v => Some v
  | None => old
  end.

(** The document after an update at time [now]. *)
Definition apply_patch (now : Z) (p : User.patch) (u : User.t) : User.t :=
  User.Make
    (set_path (User.p_googleId p) (User.googleId u))
    (set_path (User.p_email p) (User.email u))
    (set_optional (User.p_firstName p) (User.firstName u))
    (set_optional (User.p_lastName p) (User.lastName u))
    (set_optional (User.p_picture p) (User.picture u))
    (set_optional (User.p_age p) (User.age u))
    (set_optional (User.p_gender p) (User.gender u))
    (set_optional (User.p_ethnicity p) (User.ethnicity u))
    (set_optional (User.p_maritalStatus p) (User.maritalStatus u))
    (set_optional (User.p_children p) (User.children u))
    (set_optional (User.p_income p) (User.income u))
    (set_optional (User.p_location p) (User.location u))
    (User.createdAt u) now.

Fixpoint replace_first (g : string) (u' : User.t) (l : list User.t)
    : list User.t :=
  match l with
  | [] => []
  | u :: l' => if owned_by g u then u' :: l' else u :: replace_first g u' l'
  end.

(** The first profile of the owner is updated and returned; an update that
    would give two profiles the same [googleId] is refused. *)
Definition findOneAndUpdate (s : t) (now : Z) (g : string) (p : User.patch)
    : Exc (option User.t * t) :=
  if connected s then
    match List.find (owned_by g) (users s) with
    | None => Ok (None, s)
    | Some u =>
        let u' := apply_patch now p u in
        if negb (String.eqb (User.googleId u') g)
           && existsb (owned_by (User.googleId u')) (users s)
        then Throw (DuplicateKey (User.googleId u'))
        else
          Ok (Some u',
              Make (connected s) (receipts s) (replace_first g u' (users s)))
    end
  else unavailable.

#[global] Instance store : Store t := {
  Receipt_find := find;
  Receipt_save := save_receipt;
  User_findOne := findOne;
  User_save := save_user;
  User_findOneAndUpdate := findOneAndUpdate
}.

End MemStore.

(** ** Notions the properties are stated with *)

(** The sentinel category. *)
Definition sentinel : string := "Other (Type Category)".

(** The key a line item is grouped under: its category field, or the
    sentinel when the field is absent or empty. *)
Definition grouping_key (item : Receipt.item) : string :=
  match Receipt.category item with
  | Some (String c s) => String c s
  | Some EmptyString => sentinel
  | None => sentinel
  end.

(** The line items of a collection of records, in order. *)
Definition all_items (receipts : list Receipt.t) : list Receipt.item :=
  flat_map Receipt.items receipts.

(** The line items of a collection of records, each with its owner. *)
Definition owned_items (receipts : list Receipt.t)
    : list (string * Receipt.item) :=
  flat_map (fun r => map (pair (Receipt.googleId r)) (Receipt.items r))
    receipts.

(** A line item is well formed when its price is a finite number. *)
Definition finite_price (item : Receipt.item) : bool :=
  match Receipt.price item with
  | Some (Fin _) => true
  | _ => false
  end.

Definition finite_prices (receipts : list Receipt.t) : bool :=
  forallb finite_price (all_items receipts).

(** The rational a finite number stands for. *)
Definition qval (x : number) : Q :=
  match x with
  | Fin q => q
  | _ => 0
  end.

Definition qsum (l : list Q) : Q := fold_right Qplus 0 l.

Definition price_of (item : Receipt.item) : Q :=
  qval (to_number (Receipt.price item)).

(** The sum of [price] over the line items sharing a category. *)
Definition category_sum (k : string) (items : list Receipt.item) : Q :=
  qsum (map price_of
          (filter (fun item => String.eqb (grouping_key item) k) items)).

(** The running total of a category after one more line item:
    [(total || 0) + price]. *)
Definition accumulate (total : option number) (item : Receipt.item)
    : option number :=
  Some (js_add (or_zero total) (to_number (Receipt.price item))).

(** The total of a category: its own line items accumulated in order, and
    [undefined] when it has none. *)
Definition category_total (k : string) (items : list Receipt.item)
    : option number :=
  fold_left accumulate
    (filter (fun item => String.eqb (grouping_key item) k) items) None.

Definition contributes (cat : string) (r : Receipt.t) : bool :=
  existsb (fun item => String.eqb (grouping_key item) cat) (Receipt.items r).

(** The distinct owners with at least one line item in a category. *)
Definition contributing_owners (cat : string) (receipts : list Receipt.t)
    : list string :=
  nodup string_dec (map Receipt.googleId (filter (contributes cat) receipts)).

(** The sum of a list of numbers, as JavaScript adds them up. *)
Definition sum_numbers (l : list number) : number :=
  fold_left js_add l (Fin 0).

(** The value stored under a key, as a rational. *)
Definition total_of (o : obj number) (k : string) : Q :=
  match obj_get o k with
  | Some x => qval x
  | None => 0
  end.

Definition all_finite (o : obj number) : Prop :=
  Forall (fun kv => is_finite (snd kv) = true) o.

Definition qsum_vals (o : obj number) : Q :=
  qsum (map (fun kv => qval (snd kv)) o).

Definition keys {V} (o : obj V) : list string := map fst o.

(** [o'] is [o] with [q] added to the total under [k], and nothing else
    changed. *)
Definition bumps (o o' : obj number) (k : string) (q : Q) : Prop :=
  (exists x, obj_get o' k = Some (Fin x) /\ x == total_of o k + q) /\
  (forall k', k' <> k -> obj_get o' k' = obj_get o k') /\
  (forall k', In k' (keys o') <-> k' = k \/ In k' (keys o)) /\
  (NoDup (keys o) -> NoDup (keys o')) /\
  all_finite o' /\
  qsum_vals o' == qsum_vals o + q.

Definition zsum (l : list Z) : Z := fold_right Z.add 0%Z l.

(** The percentage a summary gives to a category total. *)
Definition percentage_of (totalSpent amount : number) : number :=
  Math_round (js_mul (js_div amount totalSpent) (Fin 100)).

(** The entry the comparison gives to a category. *)
Definition entry_for (userTotals averages : obj number) (cat : string)
    : Comparison.entry :=
  let userSpent := or_zero (obj_get userTotals cat) in
  let avgSpent := or_zero (obj_get averages cat) in
  let diff := Math_round (js_sub userSpent avgSpent) in
  Comparison.Entry cat (Math_abs diff) (js_gt diff (Fin 0)).

(** The members of the set stored under a category. *)
Definition users_of (usersByCategory : obj str_set) (cat : string) : str_set :=
  match obj_get usersByCategory cat with
  | Some s => s
  | None => []
  end.

(** The peer average of a category: the population's total over the number
    of distinct contributing owners, and 0 when nobody contributed. *)
Definition peer_average (cat : string) (allReceipts : list Receipt.t) : Q :=
  match contributing_owners cat allReceipts with
  | [] => 0
  | owners =>
      category_sum cat (all_items allReceipts)
      / inject_Z (Z.of_nat (List.length owners))
  end.

(** The update of [usersByCategory] for one line item of owner [uid]. *)
Definition add_users (uid : string) (usersByCategory : obj str_set)
    (item : Receipt.item) : obj str_set :=
  obj_set usersByCategory (grouping_key item)
    (set_add (users_of usersByCategory (grouping_key item)) uid).

Definition scan_users (pairs : list (string * Receipt.item))
    (usersByCategory : obj str_set) : obj str_set :=
  fold_left (fun u p => add_users (fst p) u (snd p)) pairs usersByCategory.

(** The value [averages] stores for a category. *)
Definition average_value (st : ComparisonSummary.population) (cat : string)
    : number :=
  js_div (to_number (obj_get (fst st) cat))
         (Fin (inject_Z (Z.of_nat (List.length (users_of (snd st) cat))))).

(** ** Sample inputs *)

Definition line (category : option string) (price : Q) : Receipt.item :=
  Receipt.Item None None category (Some (Fin price)).

Definition receipt_of (googleId : string) (items : list Receipt.item)
    : Receipt.t :=
  Receipt.Make googleId None None None items.

(** The scenario of the specification: Food 30, Food 10, Transport 20. *)
Definition sample_receipts : list Receipt.t :=
  [receipt_of "u1" [line (Some "Food") 30; line (Some "Food") 10];
   receipt_of "u1" [line (Some "Transport") 20]].

(** A line item parsed without a price, followed by one of 5 in the same
    category. *)
Definition unpriced_receipts : list Receipt.t :=
  [receipt_of "u1"
     [Receipt.Item None None (Some "Food") None; line (Some "Food") 5]].

(** One record whose only line item costs nothing. *)
Definition free_receipts : list Receipt.t :=
  [receipt_of "u1" [line (Some "Food") 0]].

(** The owner spends 100.4 on Food, the only other owner 100: the peer
    average is 100.2. *)
Definition close_user : list Receipt.t :=
  [receipt_of "u1" [line (Some "Food") (1004 # 10)]].

Definition close_all : list Receipt.t :=
  [receipt_of "u1" [line (Some "Food") (1004 # 10)];
   receipt_of "u2" [line (Some "Food") 100]].

(** The scenario of the specification: three owners spend 300 on Food, the
    owner 100 of them; a fourth owner buys no Food. *)
Definition peers_user : list Receipt.t :=
  [receipt_of "u1" [line (Some "Food") 100]].

Definition peers_all : list Receipt.t :=
  [receipt_of "u1" [line (Some "Food") 100];
   receipt_of "u2" [line (Some "Food") 150];
   receipt_of "u3" [line (Some "Food") 20; line (Some "Food") 30];
   receipt_of "u4" [line None 8]].

(** A refund entered by hand, with a negative amount. *)
Definition refund_item : Expense.item :=
  Expense.Item (Some "Refund") (Some "Food") (JString "-5").

Definition empty_store : MemStore.t := MemStore.Make true [] [].

(** A store whose every call fails. *)
Definition unreachable_store : MemStore.t := MemStore.Make false [] [].

Definition first_signup : User.draft :=
  User.Draft (Some "u1") (Some "ann@example.org") (Some "Ann") None None.

Definition second_signup : User.draft :=
  User.Draft (Some "u1") (Some "other@example.org") (Some "Anna")
    (Some "Lee") None.

Definition first_profile : User.t :=
  User.Make "u1" "ann@example.org" (Some "Ann") None None
    None None None None None None None 1000 1000.

(** What a line item of a manual entry is stored as. *)
Definition stored_as (item : Expense.item) (stored : Receipt.item) : Prop :=
  Receipt.name stored
  = Some match Expense.description item with
         | Some (String c s) => String c s
         | Some EmptyString => "Unknown"
         | None => "Unknown"
         end /\
  Receipt.category stored
  = Some match Expense.category item with
         | Some (String c s) => String c s
         | Some EmptyString => sentinel
         | None => sentinel
         end /\
  exists p,
    Receipt.price stored = Some p /\
    p <> NaN /\
    (parseFloat (Expense.amount item) = NaN -> p = Fin 0) /\
    (truthy (parseFloat (Expense.amount item)) = true ->
     p = parseFloat (Expense.amount item)) /\
    (truthy (parseFloat (Expense.amount item)) = false -> p = Fin 0).

(** ** Further notions and sample inputs *)

(** A line item whose price is a finite number that is not negative. *)
Definition nonneg_price (item : Receipt.item) : bool :=
  match Receipt.price item with
  | Some (Fin q) => Qle_bool 0 q
  | _ => false
  end.

Definition nonneg_prices (receipts : list Receipt.t) : bool :=
  forallb nonneg_price (all_items receipts).

(** The records of one owner among those of everybody. *)
Definition owned_receipts (g : string) (receipts : list Receipt.t)
    : list Receipt.t :=
  filter (fun r => String.eqb (Receipt.googleId r) g) receipts.

(** An image parser that always fails, and a text generator that echoes the
    number of categories. *)
Definition failing_parser (f : option unit) : Exc receipt_data :=
  Throw (AdapterError "no structured data").

Definition counting_generator (l : list Summary.entry) : Exc string :=
  Ok (toString (N.of_nat (List.length l))).

(** A store holding the records of the sample population, all dated at
    time 5000. *)
Definition dated (r : Receipt.t) : Receipt.t :=
  Receipt.Make (Receipt.googleId r) (Receipt.receiptId r) (Receipt.vendor r)
    (Some 5000%Z) (Receipt.items r).

Definition peers_store : MemStore.t :=
  MemStore.Make true (map dated peers_all) [first_profile].

(** An image parser that reads an empty receipt, and a text generator that
    always fails. *)
Definition blank_parser (f : option unit) : Exc receipt_data :=
  Ok (ReceiptData None None None []).

Definition failing_generator (l : list Summary.entry) : Exc string :=
  Throw (AdapterError "no summary").

(** ** Facts about objects *)

Unset Implicit Arguments.

Section ObjectFacts.

Context {V : Type}.
Implicit Types (o : obj V) (k : string) (v : V).

Lemma obj_get_set_same o k v : obj_get (obj_set o k v) k = Some v.
Proof.
  induction o as [|[k' v'] o IH]; simpl.
  - now rewrite String.eqb_refl.
  - destruct (String.eqb k' k) eqn:E; simpl.
    + now rewrite String.eqb_refl.
    + now rewrite E.
Qed.

Lemma obj_get_set_other o k k' v :
  k' <> k -> obj_get (obj_set o k v) k' = obj_get o k'.
Proof.
  intros Hne. induction o as [|[k0 v0] o IH]; simpl.
  - destruct (String.eqb k k') eqn:E; [|reflexivity].
    apply String.eqb_eq in E. congruence.
  - destruct (String.eqb k0 k) eqn:E; simpl.
    + apply String.eqb_eq in E. subst k0.
      destruct (String.eqb k k') eqn:E'; [|reflexivity].
      apply String.eqb_eq in E'. congruence.
    + destruct (String.eqb k0 k'); [reflexivity|exact IH].
Qed.

Lemma keys_set o k v k' :
  In k' (keys (obj_set o k v)) <-> k' = k \/ In k' (keys o).
Proof.
  unfold keys. induction o as [|[k0 v0] o IH]; simpl.
  - intuition.
  - destruct (String.eqb k0 k) eqn:E; simpl.
    + apply String.eqb_eq in E. subst k0. intuition.
    + rewrite IH. intuition.
Qed.

Lemma keys_set_NoDup o k v : NoDup (keys o) -> NoDup (keys (obj_set o k v)).
Proof.
  unfold keys. induction o as [|[k0 v0] o IH]; simpl; intros Hnd.
  - constructor; [intros []|constructor].
  - inversion Hnd as [|? ? Hnotin Hnd']; subst.
    destruct (String.eqb k0 k) eqn:E; simpl.
    + apply String.eqb_eq in E. subst k0. now constructor.
    + constructor; [|now apply IH].
      intros Hin. apply (keys_set o k v k0) in Hin.
      destruct Hin as [->|Hin]; [|contradiction].
      now rewrite String.eqb_refl in E.
Qed.

Lemma obj_get_None o k : obj_get o k = None <-> ~ In k (keys o).
Proof.
  unfold keys. induction o as [|[k0 v0] o IH]; simpl.
  - intuition.
  - destruct (String.eqb k0 k) eqn:E.
    + apply String.eqb_eq in E. subst k0. split; [discriminate|].
      intros H. exfalso. apply H. now left.
    + apply String.eqb_neq in E. rewrite IH. intuition.
Qed.

Lemma obj_get_Some_In o k v : obj_get o k = Some v -> In (k, v) o.
Proof.
  induction o as [|[k0 v0] o IH]; simpl; [discriminate|].
  destruct (String.eqb k0 k) eqn:E.
  - apply String.eqb_eq in E. subst k0. intros [= ->]. now left.
  - intros H. right. now apply IH.
Qed.

Lemma obj_get_In o k v :
  NoDup (keys o) -> In (k, v) o -> obj_get o k = Some v.
Proof.
  unfold keys. induction o as [|[k0 v0] o IH]; simpl; [intros _ []|].
  intros Hnd [Heq|Hin].
  - injection Heq as -> ->. now rewrite String.eqb_refl.
  - inversion Hnd as [|? ? Hnotin Hnd']; subst.
    destruct (String.eqb k0 k) eqn:E; [|now apply IH].
    apply String.eqb_eq in E. subst k0. exfalso. apply Hnotin.
    change k with (fst (k, v)). now apply in_map.
Qed.

Lemma insert_index_perm n (e : string * V) l :
  Permutation (insert_index n e l) ((n, e) :: l).
Proof.
  induction l as [|[m e'] l IH]; simpl; [reflexivity|].
  destruct (n <=? m)%N; [reflexivity|].
  rewrite IH. apply perm_swap.
Qed.

Lemma Object_entries_perm o : Permutation (Object_entries o) o.
Proof.
  unfold Object_entries, named_entries.
  induction o as [|[k v] o IH]; simpl; [reflexivity|].
  destruct (array_index k) as [n|]; simpl.
  - rewrite insert_index_perm. simpl. now constructor.
  - symmetry. apply Permutation_cons_app. now symmetry.
Qed.

Lemma Object_keys_perm o : Permutation (Object_keys o) (keys o).
Proof. apply Permutation_map, Object_entries_perm. Qed.

Lemma Object_keys_In o k : In k (Object_keys o) <-> In k (keys o).
Proof.
  split; apply Permutation_in;
    [|symmetry]; apply Object_keys_perm.
Qed.

Lemma Object_keys_NoDup o : NoDup (keys o) -> NoDup (Object_keys o).
Proof.
  apply Permutation_NoDup. symmetry. apply Object_keys_perm.
Qed.

Lemma Object_entries_In o (e : string * V) :
  In e (Object_entries o) <-> In e o.
Proof.
  split; apply Permutation_in;
    [|symmetry]; apply Object_entries_perm.
Qed.

End ObjectFacts.

(** ** Facts about sums and totals *)

Lemma qsum_app l l' : qsum (l ++ l') == qsum l + qsum l'.
Proof.
  induction l as [|a l IH]; simpl; [lra|]. rewrite IH. lra.
Qed.

Lemma qsum_perm l l' : Permutation l l' -> qsum l == qsum l'.
Proof.
  induction 1; simpl; lra.
Qed.

Lemma qsum_vals_perm o o' : Permutation o o' -> qsum_vals o == qsum_vals o'.
Proof.
  intros H. apply qsum_perm. now apply Permutation_map.
Qed.

Lemma qsum_vals_set o k x :
  qsum_vals (obj_set o k x) == qsum_vals o - total_of o k + qval x.
Proof.
  unfold qsum_vals, total_of.
  induction o as [|[k0 v0] o IH]; simpl; [lra|].
  destruct (String.eqb k0 k); simpl; [lra|].
  rewrite IH. lra.
Qed.

Lemma all_finite_set o k q : all_finite o -> all_finite (obj_set o k (Fin q)).
Proof.
  unfold all_finite.
  induction o as [|[k0 v0] o IH]; simpl; intros H.
  - now constructor.
  - inversion H; subst. destruct (String.eqb k0 k); constructor; auto.
Qed.

Lemma all_finite_get o k x :
  all_finite o -> obj_get o k = Some x -> exists q, x = Fin q.
Proof.
  intros Hfin Hget. apply obj_get_Some_In in Hget.
  unfold all_finite in Hfin. rewrite Forall_forall in Hfin.
  specialize (Hfin _ Hget). simpl in Hfin.
  destruct x; try discriminate. now exists q.
Qed.

Lemma all_finite_perm o o' :
  Permutation o o' -> all_finite o -> all_finite o'.
Proof.
  unfold all_finite. intros Hp. now apply Permutation_Forall.
Qed.

Lemma fold_js_add_finite l a :
  Forall (fun x => is_finite x = true) l ->
  exists t, fold_left js_add l (Fin a) = Fin t /\ t == a + qsum (map qval l).
Proof.
  revert a. induction l as [|x l IH]; simpl; intros a H.
  - exists a. split; [reflexivity|lra].
  - inversion H as [|? ? Hx Hl]; subst.
    destruct x as [| | |q]; try discriminate. simpl.
    destruct (IH (a + q) Hl) as [t [Ht Hq]].
    exists t. split; [exact Ht|]. rewrite Hq. lra.
Qed.

Lemma total_of_set_same o k x : total_of (obj_set o k x) k = qval x.
Proof.
  unfold total_of. now rewrite obj_get_set_same.
Qed.

Lemma bumps_set o k x q :
  all_finite o -> x == total_of o k + q -> bumps o (obj_set o k (Fin x)) k q.
Proof.
  intros Hfin Hx. repeat split.
  - exists x. split; [apply obj_get_set_same|exact Hx].
  - intros k' Hne. now apply obj_get_set_other.
  - apply keys_set.
  - apply keys_set.
  - apply keys_set_NoDup.
  - now apply all_finite_set.
  - rewrite qsum_vals_set. simpl. lra.
Qed.

Lemma bumps_trans o o1 o2 k a b :
  bumps o o1 k a -> bumps o1 o2 k b -> bumps o o2 k (a + b).
Proof.
  intros (Hx1 & Ho1 & Hk1 & Hn1 & Hf1 & Hs1).
  intros (Hx2 & Ho2 & Hk2 & Hn2 & Hf2 & Hs2).
  destruct Hx1 as [x1 [Hg1 Hq1]]. destruct Hx2 as [x2 [Hg2 Hq2]].
  repeat split.
  - exists x2. split; [exact Hg2|].
    rewrite Hq2. unfold total_of at 1. rewrite Hg1. simpl. rewrite Hq1. lra.
  - intros k' Hne. rewrite Ho2, Ho1; auto.
  - rewrite Hk2, Hk1. tauto.
  - rewrite Hk2, Hk1. tauto.
  - auto.
  - exact Hf2.
  - rewrite Hs2, Hs1. lra.
Qed.

Lemma bumps_compat o o' k q q' : q == q' -> bumps o o' k q -> bumps o o' k q'.
Proof.
  intros Hq (Hx & Ho & Hk & Hn & Hf & Hs).
  destruct Hx as [x [Hg Hx]].
  repeat split; auto.
  - exists x. split; [exact Hg|]. rewrite Hx. lra.
  - apply Hk.
  - apply Hk.
  - rewrite Hs. lra.
Qed.

Lemma or_string_grouping item :
  or_string (Receipt.category item) "Other (Type Category)"
  = grouping_key item.
Proof.
  unfold or_string, grouping_key.
  destruct (Receipt.category item) as [[|c s]|]; reflexivity.
Qed.

Lemma truthy_zero q : truthy (Fin q) = false -> q == 0.
Proof.
  simpl. intros H. apply negb_false_iff in H. now apply Qeq_bool_eq.
Qed.

(** The totals update of the spending summary adds the price of the item
    under its grouping key. *)
Lemma add_item_bumps o item q :
  all_finite o ->
  Receipt.price item = Some (Fin q) ->
  bumps o (SpendingSummary.add_item o item) (grouping_key item) q.
Proof.
  intros Hfin Hp. unfold SpendingSummary.add_item.
  rewrite or_string_grouping, Hp. simpl to_number at 2.
  set (k := grouping_key item).
  destruct (truthy_opt (obj_get o k)) eqn:Ht; simpl negb; cbv iota.
  - destruct (obj_get o k) as [x|] eqn:Hg; [|discriminate].
    destruct (all_finite_get _ _ _ Hfin Hg) as [v ->]. simpl.
    apply bumps_set; [exact Hfin|].
    unfold total_of. rewrite Hg. simpl. lra.
  - rewrite obj_get_set_same. simpl.
    assert (H0 : total_of o k == 0).
    { unfold total_of. destruct (obj_get o k) as [x|] eqn:Hg; [|lra].
      destruct (all_finite_get _ _ _ Hfin Hg) as [v ->].
      simpl in *. now apply truthy_zero. }
    apply bumps_compat with (q := 0 + q); [lra|].
    apply bumps_trans with (o1 := obj_set o k (Fin 0)).
    + apply bumps_set; [exact Hfin|]. rewrite H0. lra.
    + apply bumps_set; [now apply all_finite_set|].
      rewrite total_of_set_same. simpl. lra.
Qed.

(** So does the totals update of the comparison summary. *)
Lemma add_user_item_bumps o item q :
  all_finite o ->
  Receipt.price item = Some (Fin q) ->
  bumps o (ComparisonSummary.add_user_item o item) (grouping_key item) q.
Proof.
  intros Hfin Hp. unfold ComparisonSummary.add_user_item.
  rewrite or_string_grouping, Hp. simpl to_number.
  set (k := grouping_key item).
  assert (H : exists v, or_zero (obj_get o k) = Fin v /\ v == total_of o k).
  { unfold or_zero, total_of.
    destruct (obj_get o k) as [x|] eqn:Hg;
      [|exists 0; split; [reflexivity|lra]].
    destruct (all_finite_get _ _ _ Hfin Hg) as [v ->].
    destruct (truthy (Fin v)) eqn:Ht.
    - exists v. split; [reflexivity|simpl; lra].
    - exists 0. split; [reflexivity|]. apply truthy_zero in Ht. simpl. lra. }
  destruct H as [v [-> Hv]]. simpl.
  apply bumps_set; [exact Hfin|]. rewrite Hv. lra.
Qed.

Lemma fold_receipts_items {A} (f : A -> Receipt.item -> A) receipts a :
  fold_left (fun acc r => fold_left f (Receipt.items r) acc) receipts a
  = fold_left f (all_items receipts) a.
Proof.
  unfold all_items. revert a.
  induction receipts as [|r rs IH]; simpl; intros a; [reflexivity|].
  now rewrite fold_left_app, IH.
Qed.

Lemma finite_price_inv item :
  finite_price item = true -> exists q, Receipt.price item = Some (Fin q).
Proof.
  unfold finite_price.
  destruct (Receipt.price item) as [[| | |q]|]; try discriminate.
  now exists q.
Qed.

Lemma category_sum_cons k item items :
  category_sum k (item :: items)
  == (if String.eqb (grouping_key item) k then price_of item else 0)
     + category_sum k items.
Proof.
  unfold category_sum. simpl.
  destruct (String.eqb (grouping_key item) k); simpl; lra.
Qed.

Lemma bumps_total o o' k q k' :
  bumps o o' k q ->
  total_of o' k' == total_of o k' + (if String.eqb k k' then q else 0).
Proof.
  intros (Hx & Ho & _). destruct Hx as [x [Hg Hx]].
  destruct (String.eqb k k') eqn:E.
  - apply String.eqb_eq in E. subst k'.
    unfold total_of at 1. rewrite Hg. simpl. exact Hx.
  - apply String.eqb_neq in E.
    unfold total_of. rewrite Ho by congruence. lra.
Qed.

(** A loop that adds each item's price under its grouping key computes the
    per-category sums. *)
Section FoldTotals.

Variable step : obj number -> Receipt.item -> obj number.

Hypothesis step_bumps :
  forall o item q,
    all_finite o -> Receipt.price item = Some (Fin q) ->
    bumps o (step o item) (grouping_key item) q.

Lemma fold_totals items :
  forall o,
    all_finite o -> forallb finite_price items = true ->
    let o' := fold_left step items o in
    all_finite o' /\
    (NoDup (keys o) -> NoDup (keys o')) /\
    (forall k, In k (keys o') <->
               In k (keys o) \/
               exists item, In item items /\ grouping_key item = k) /\
    (forall k, total_of o' k == total_of o k + category_sum k items) /\
    qsum_vals o' == qsum_vals o + qsum (map price_of items).
Proof.
  induction items as [|item items IH]; simpl; intros o Hfin Hitems.
  - repeat split; auto.
    + intros [H|[item [[] _]]]. exact H.
    + intros k. unfold category_sum. simpl. lra.
    + lra.
  - apply andb_prop in Hitems. destruct Hitems as [Hitem Hitems].
    destruct (finite_price_inv _ Hitem) as [q Hq].
    pose proof (step_bumps o item q Hfin Hq) as Hb.
    pose proof Hb as (_ & _ & Hk & Hn & Hf & Hs).
    destruct (IH (step o item) Hf Hitems) as (Hf' & Hn' & Hk' & Ht' & Hs').
    repeat split; auto.
    + intros H. apply Hk' in H. destruct H as [H|[it [Hin Hkey]]].
      * apply Hk in H. destruct H as [->|H]; [|now left].
        right. exists item. split; [now left|reflexivity].
      * right. exists it. split; [now right|exact Hkey].
    + intros H. apply Hk'. destruct H as [H|[it [[->|Hin] Hkey]]].
      * left. apply Hk. now right.
      * left. apply Hk. now left.
      * right. now exists it.
    + intros k. rewrite Ht', (bumps_total _ _ _ _ k Hb), category_sum_cons.
      unfold price_of. rewrite Hq. simpl. lra.
    + rewrite Hs', Hs. unfold price_of at 2. rewrite Hq. simpl. lra.
Qed.

Lemma fold_totals_empty items :
  forallb finite_price items = true ->
  let o := fold_left step items [] in
  all_finite o /\
  NoDup (keys o) /\
  (forall k, In k (keys o) <->
             exists item, In item items /\ grouping_key item = k) /\
  (forall k, total_of o k == category_sum k items) /\
  qsum_vals o == qsum (map price_of items).
Proof.
  intros Hitems.
  destruct (fold_totals items [] (Forall_nil _) Hitems)
    as (Hf & Hn & Hk & Ht & Hs).
  repeat split; auto.
  - apply Hn. constructor.
  - intros H. apply Hk in H. destruct H as [[]|H]. exact H.
  - intros H. apply Hk. now right.
  - intros k. rewrite Ht. unfold total_of. simpl. lra.
  - rewrite Hs. unfold qsum_vals. simpl. lra.
Qed.

End FoldTotals.

Lemma categoryTotals_flat receipts :
  SpendingSummary.categoryTotals receipts
  = fold_left SpendingSummary.add_item (all_items receipts) [].
Proof. apply fold_receipts_items. Qed.

Lemma userTotals_flat receipts :
  ComparisonSummary.userTotals receipts
  = fold_left ComparisonSummary.add_user_item (all_items receipts) [].
Proof. apply fold_receipts_items. Qed.

Lemma finite_total o k :
  all_finite o -> In k (keys o) ->
  exists x, obj_get o k = Some (Fin x) /\ x == total_of o k.
Proof.
  intros Hfin Hin. unfold total_of.
  destruct (obj_get o k) as [v|] eqn:Hg.
  - destruct (all_finite_get _ _ _ Hfin Hg) as [x ->].
    exists x. split; [reflexivity|simpl; lra].
  - apply obj_get_None in Hg. contradiction.
Qed.

Lemma finite_values o :
  all_finite o -> Forall (fun x => is_finite x = true) (Object_values o).
Proof.
  intros Hfin. unfold Object_values.
  apply Forall_map.
  apply (all_finite_perm o); [|exact Hfin].
  symmetry. apply Object_entries_perm.
Qed.

Lemma qsum_values o :
  qsum (map qval (Object_values o)) == qsum_vals o.
Proof.
  unfold Object_values. rewrite map_map.
  apply qsum_perm, Permutation_map, Object_entries_perm.
Qed.

Lemma totalSpent_finite o :
  all_finite o ->
  exists t, SpendingSummary.totalSpent o = Fin t /\ t == qsum_vals o.
Proof.
  intros Hfin. unfold SpendingSummary.totalSpent.
  destruct (fold_js_add_finite (Object_values o) 0 (finite_values o Hfin))
    as [t [Ht Hq]].
  exists t. split; [exact Ht|]. rewrite Hq, qsum_values. lra.
Qed.

Lemma summary_amounts receipts :
  map Summary.amount (SpendingSummary.summary receipts)
  = Object_values (SpendingSummary.categoryTotals receipts).
Proof.
  unfold SpendingSummary.summary, Object_values. rewrite map_map.
  apply map_ext. now intros [name amount].
Qed.

Lemma categoryTotals_facts receipts :
  finite_prices receipts = true ->
  let o := SpendingSummary.categoryTotals receipts in
  all_finite o /\
  NoDup (keys o) /\
  (forall k, In k (keys o) <->
             exists item, In item (all_items receipts) /\
                          grouping_key item = k) /\
  (forall k, total_of o k == category_sum k (all_items receipts)) /\
  qsum_vals o == qsum (map price_of (all_items receipts)).
Proof.
  intros Hfin. rewrite categoryTotals_flat.
  apply (fold_totals_empty _ add_item_bumps). exact Hfin.
Qed.

Lemma item_prices_finite receipts :
  finite_prices receipts = true ->
  Forall (fun x => is_finite x = true)
    (map (fun item => to_number (Receipt.price item)) (all_items receipts)).
Proof.
  unfold finite_prices. intros H. rewrite forallb_forall in H.
  apply Forall_map, Forall_forall. intros item Hin.
  destruct (finite_price_inv _ (H _ Hin)) as [q ->]. reflexivity.
Qed.

(** *** The total under a key depends on the items of that key alone *)

Lemma add_item_get o item k :
  obj_get (SpendingSummary.add_item o item) k
  = if String.eqb (grouping_key item) k
    then accumulate (obj_get o k) item
    else obj_get o k.
Proof.
  unfold SpendingSummary.add_item. rewrite or_string_grouping.
  set (key := grouping_key item).
  destruct (String.eqb key k) eqn:E.
  - apply String.eqb_eq in E. subst k. rewrite obj_get_set_same.
    unfold accumulate. do 2 f_equal.
    destruct (truthy_opt (obj_get o key)) eqn:Ht; cbn [negb].
    + destruct (obj_get o key) as [x|]; [|discriminate].
      simpl in *. now rewrite Ht.
    + rewrite obj_get_set_same. simpl.
      destruct (obj_get o key) as [x|]; simpl in *;
        [now rewrite Ht|reflexivity].
  - apply String.eqb_neq in E. rewrite obj_get_set_other by congruence.
    destruct (truthy_opt (obj_get o key)); cbn [negb]; [reflexivity|].
    apply obj_get_set_other. congruence.
Qed.

Lemma add_user_item_get o item k :
  obj_get (ComparisonSummary.add_user_item o item) k
  = if String.eqb (grouping_key item) k
    then accumulate (obj_get o k) item
    else obj_get o k.
Proof.
  unfold ComparisonSummary.add_user_item. rewrite or_string_grouping.
  destruct (String.eqb (grouping_key item) k) eqn:E.
  - apply String.eqb_eq in E. subst k. now rewrite obj_get_set_same.
  - apply String.eqb_neq in E. apply obj_get_set_other. congruence.
Qed.

Lemma accumulate_from_Some l : forall x,
  fold_left accumulate l (Some x) <> None.
Proof.
  induction l as [|item l IH]; simpl; intros x; [discriminate|].
  apply IH.
Qed.

Lemma category_total_None k items :
  category_total k items = None <->
  ~ exists item, In item items /\ grouping_key item = k.
Proof.
  unfold category_total.
  destruct (filter (fun item => String.eqb (grouping_key item) k) items)
    as [|item l] eqn:Hf.
  - split; [|reflexivity]. intros _ [item [Hin Hk]].
    assert (H : In item
                  (filter (fun item => String.eqb (grouping_key item) k)
                     items)).
    { apply filter_In. split; [exact Hin|]. now apply String.eqb_eq. }
    rewrite Hf in H. destruct H.
  - split.
    + intros H. simpl in H. now apply accumulate_from_Some in H.
    + intros H. exfalso. apply H. exists item.
      assert (Hin : In item
                      (filter (fun item => String.eqb (grouping_key item) k)
                         items))
        by (rewrite Hf; now left).
      apply filter_In in Hin. destruct Hin as [Hin Hk].
      split; [exact Hin|]. now apply String.eqb_eq.
Qed.

Section FoldGet.

Variable step : obj number -> Receipt.item -> obj number.

Hypothesis step_get :
  forall o item k,
    obj_get (step o item) k
    = if String.eqb (grouping_key item) k
      then accumulate (obj_get o k) item
      else obj_get o k.

Lemma fold_get items : forall o k,
  obj_get (fold_left step items o) k
  = fold_left accumulate
      (filter (fun item => String.eqb (grouping_key item) k) items)
      (obj_get o k).
Proof.
  induction items as [|item items IH]; simpl; intros o k; [reflexivity|].
  rewrite IH, step_get.
  destruct (String.eqb (grouping_key item) k); reflexivity.
Qed.

Lemma fold_get_empty items k :
  obj_get (fold_left step items []) k = category_total k items.
Proof. apply fold_get. Qed.

Lemma fold_keys items k :
  In k (keys (fold_left step items [])) <->
  exists item, In item items /\ grouping_key item = k.
Proof.
  pose proof (obj_get_None (fold_left step items []) k) as Hn.
  rewrite fold_get_empty, category_total_None in Hn.
  split.
  - intros Hin.
    destruct (in_dec string_dec k (map grouping_key items)) as [Hi|Hni].
    + apply in_map_iff in Hi. destruct Hi as [item [Hk Hi]].
      now exists item.
    + exfalso. apply (proj1 Hn); [|exact Hin].
      intros [item [Hi Hk]]. apply Hni. rewrite <- Hk. now apply in_map.
  - intros Hex.
    destruct (in_dec string_dec k (keys (fold_left step items [])))
      as [Hi|Hni]; [exact Hi|].
    apply (proj2 Hn) in Hni. contradiction.
Qed.

End FoldGet.

(** A line item without a price resets the total of its category: the
    items after it are counted, those before it are not. *)
Example unpriced_item_resets_total :
  SpendingSummary.categoryTotals unpriced_receipts = [("Food", Fin 5)] /\
  category_total "Food" (all_items unpriced_receipts) = Some (Fin 5).
Proof. split; reflexivity. Qed.

(** ** The category aggregator *)



(** *** Percentages *)

Lemma floor_sum_bound xs :
  let ps := map (fun x => Qfloor (x + (1 # 2))) xs in
  let n := inject_Z (Z.of_nat (List.length xs)) in
  qsum xs - n * (1 # 2) <= inject_Z (zsum ps) /\
  inject_Z (zsum ps) <= qsum xs + n * (1 # 2).
Proof.
  induction xs as [|x xs IH]; cbn [map List.length zsum qsum fold_right].
  - unfold inject_Z. simpl. split; lra.
  - cbn [map List.length zsum qsum fold_right] in IH.
    destruct IH as [IHlo IHhi].
    rewrite Nat2Z.inj_succ, <- Z.add_1_r, !inject_Z_plus.
    pose proof (Qfloor_le (x + (1 # 2))) as Hle.
    pose proof (Qlt_floor (x + (1 # 2))) as Hlt.
    rewrite inject_Z_plus in Hlt.
    change (inject_Z 1) with 1 in *.
    change (fold_right Qplus 0 xs) with (qsum xs).
    change (fold_right Z.add 0%Z
              (map (fun x0 : Q => Qfloor (x0 + (1 # 2))) xs))
      with (zsum (map (fun x0 : Q => Qfloor (x0 + (1 # 2))) xs)).
    split; lra.
Qed.

Lemma qsum_scaled t qs :
  ~ t == 0 ->
  qsum (map (fun a => a / t * 100) qs) == qsum qs / t * 100.
Proof.
  intros Ht. induction qs as [|a qs IH]; simpl.
  - field. exact Ht.
  - rewrite IH. field. exact Ht.
Qed.

Lemma finite_list l :
  Forall (fun x => is_finite x = true) l -> l = map Fin (map qval l).
Proof.
  induction 1 as [|x l Hx Hl IH]; simpl; [reflexivity|].
  destruct x; try discriminate. simpl. now rewrite <- IH.
Qed.

Lemma summary_percentages receipts :
  map Summary.percentage (SpendingSummary.summary receipts)
  = map (percentage_of
           (SpendingSummary.totalSpent
              (SpendingSummary.categoryTotals receipts)))
        (Object_values (SpendingSummary.categoryTotals receipts)).
Proof.
  unfold SpendingSummary.summary, Object_values. rewrite !map_map.
  apply map_ext. now intros [name amount].
Qed.

Lemma percentage_of_nonzero t a :
  ~ t == 0 ->
  percentage_of (Fin t) (Fin a)
  = Fin (inject_Z (Qfloor (a / t * 100 + (1 # 2)))).
Proof.
  intros Ht. unfold percentage_of. simpl.
  destruct (Qeq_bool t 0) eqn:E; [|reflexivity].
  apply Qeq_bool_eq in E. contradiction.
Qed.

Lemma percentage_of_zero t a :
  t == 0 -> percentage_of (Fin t) (Fin a) = sign_inf (a ?= 0).
Proof.
  intros Ht. unfold percentage_of. simpl.
  rewrite (Qeq_eq_bool _ _ Ht).
  destruct (a ?= 0); reflexivity.
Qed.

Lemma sign_inf_not_finite c : is_finite (sign_inf c) = false.
Proof. now destruct c. Qed.

Lemma summary_entry receipts e :
  In e (SpendingSummary.summary receipts) ->
  In (Summary.name e, Summary.amount e)
     (Object_entries (SpendingSummary.categoryTotals receipts)) /\
  Summary.percentage e
  = percentage_of
      (SpendingSummary.totalSpent (SpendingSummary.categoryTotals receipts))
      (Summary.amount e).
Proof.
  unfold SpendingSummary.summary. intros Hin.
  apply in_map_iff in Hin. destruct Hin as [[name amount] [<- Hin]].
  simpl. split; [exact Hin|reflexivity].
Qed.

Lemma half_bound_Z (z n : Z) :
  100 - inject_Z n * (1 # 2) <= inject_Z z ->
  inject_Z z <= 100 + inject_Z n * (1 # 2) ->
  (2 * Z.abs (z - 100) <= n)%Z.
Proof.
  intros Hlo Hhi.
  assert (H1 : (2 * z <= n + 200)%Z).
  { rewrite Zle_Qle, inject_Z_plus, inject_Z_mult.
    change (inject_Z 2) with 2. change (inject_Z 200) with 200. lra. }
  assert (H2 : (200 <= n + 2 * z)%Z).
  { rewrite Zle_Qle, inject_Z_plus, inject_Z_mult.
    change (inject_Z 2) with 2. change (inject_Z 200) with 200. lra. }
  lia.
Qed.






(** ** Facts about sets *)

Lemma set_has_In s x : set_has s x = true <-> In x s.
Proof.
  unfold set_has. rewrite existsb_exists. split.
  - intros [y [Hin Heq]]. apply String.eqb_eq in Heq. now subst.
  - intros Hin. exists x. split; [exact Hin|apply String.eqb_refl].
Qed.

Lemma set_add_In s y x : In x (set_add s y) <-> x = y \/ In x s.
Proof.
  unfold set_add. destruct (set_has s y) eqn:E.
  - apply set_has_In in E. split; [now right|].
    intros [->|H]; assumption.
  - rewrite in_app_iff. simpl. intuition.
Qed.

Lemma set_add_NoDup s y : NoDup s -> NoDup (set_add s y).
Proof.
  intros Hnd. unfold set_add. destruct (set_has s y) eqn:E; [exact Hnd|].
  apply NoDup_app; [exact Hnd|repeat constructor; intros []|].
  intros x Hin [<-|[]].
  apply set_has_In in Hin. congruence.
Qed.

Lemma set_fold_In xs : forall s x,
  In x (fold_left set_add xs s) <-> In x s \/ In x xs.
Proof.
  induction xs as [|y xs IH]; simpl; intros s x; [intuition|].
  rewrite IH, set_add_In. intuition.
Qed.

Lemma set_fold_NoDup xs : forall s, NoDup s -> NoDup (fold_left set_add xs s).
Proof.
  induction xs as [|y xs IH]; simpl; intros s Hnd; [exact Hnd|].
  now apply IH, set_add_NoDup.
Qed.

Lemma set_of_list_In xs x : In x (set_of_list xs) <-> In x xs.
Proof.
  unfold set_of_list. rewrite set_fold_In. simpl. intuition.
Qed.

Lemma set_of_list_NoDup xs : NoDup (set_of_list xs).
Proof. apply set_fold_NoDup. constructor. Qed.

(** ** The peer comparison engine *)

Lemma push_entries userTotals averages cats : forall acc,
  fold_left (ComparisonSummary.push_entry userTotals averages) cats acc
  = (acc ++ map (entry_for userTotals averages) cats)%list.
Proof.
  induction cats as [|cat cats IH]; cbn [fold_left map]; intros acc.
  - now rewrite app_nil_r.
  - rewrite IH. unfold ComparisonSummary.push_entry.
    now rewrite <- app_assoc.
Qed.

Lemma entry_for_category userTotals averages cats :
  map Comparison.category (map (entry_for userTotals averages) cats) = cats.
Proof.
  rewrite map_map. simpl. apply map_id.
Qed.


(** *** The population scan *)

Lemma scan_pairs receipts : forall st,
  fold_left
    (fun st receipt =>
       let uid := Receipt.googleId receipt in
       fold_left (ComparisonSummary.add_population_item uid)
         (Receipt.items receipt) st)
    receipts st
  = fold_left
      (fun st p => ComparisonSummary.add_population_item (fst p) st (snd p))
      (owned_items receipts) st.
Proof.
  unfold owned_items.
  induction receipts as [|r rs IH]; simpl; intros st; [reflexivity|].
  rewrite fold_left_app, IH. f_equal.
  generalize (Receipt.items r). intros items. revert st.
  induction items as [|item items IHi]; simpl; intros st; [reflexivity|].
  apply IHi.
Qed.

Lemma owned_items_items receipts :
  map snd (owned_items receipts) = all_items receipts.
Proof.
  unfold owned_items, all_items.
  induction receipts as [|r rs IH]; simpl; [reflexivity|].
  rewrite map_app, IH, map_map. simpl. now rewrite map_id.
Qed.

Lemma scan_pairs_fst pairs : forall st,
  fst (fold_left
         (fun st p => ComparisonSummary.add_population_item (fst p) st (snd p))
         pairs st)
  = fold_left ComparisonSummary.add_user_item (map snd pairs) (fst st).
Proof.
  induction pairs as [|[uid item] pairs IH]; simpl; intros [a u];
    [reflexivity|].
  rewrite IH. reflexivity.
Qed.

Lemma scan_pairs_snd pairs : forall st,
  snd (fold_left
         (fun st p => ComparisonSummary.add_population_item (fst p) st (snd p))
         pairs st)
  = scan_users pairs (snd st).
Proof.
  unfold scan_users.
  induction pairs as [|[uid item] pairs IH]; simpl; intros [a u];
    [reflexivity|].
  rewrite IH. simpl. unfold add_users, users_of.
  now rewrite or_string_grouping.
Qed.

Lemma scan_allTotals receipts :
  fst (ComparisonSummary.scan receipts)
  = fold_left ComparisonSummary.add_user_item (all_items receipts) [].
Proof.
  unfold ComparisonSummary.scan.
  now rewrite scan_pairs, scan_pairs_fst, owned_items_items.
Qed.

Lemma scan_usersByCategory receipts :
  snd (ComparisonSummary.scan receipts)
  = scan_users (owned_items receipts) [].
Proof.
  unfold ComparisonSummary.scan. now rewrite scan_pairs, scan_pairs_snd.
Qed.

Lemma users_of_add uid u item cat :
  users_of (add_users uid u item) cat
  = if String.eqb (grouping_key item) cat
    then set_add (users_of u cat) uid
    else users_of u cat.
Proof.
  unfold add_users. destruct (String.eqb (grouping_key item) cat) eqn:E.
  - apply String.eqb_eq in E. subst cat.
    unfold users_of at 1. now rewrite obj_get_set_same.
  - apply String.eqb_neq in E.
    unfold users_of at 1. rewrite obj_get_set_other by congruence.
    reflexivity.
Qed.

Lemma scan_users_facts pairs : forall u,
  (forall cat, NoDup (users_of u cat)) ->
  let u' := scan_users pairs u in
  (forall cat, NoDup (users_of u' cat)) /\
  (forall cat x,
     In x (users_of u' cat) <->
     In x (users_of u cat) \/
     exists item, In (x, item) pairs /\ grouping_key item = cat) /\
  (forall cat,
     In cat (keys u') <->
     In cat (keys u) \/
     exists p, In p pairs /\ grouping_key (snd p) = cat).
Proof.
  unfold scan_users.
  induction pairs as [|[uid item] pairs IH]; simpl; intros u Hnd.
  - split; [exact Hnd|]. split.
    + intros cat x. split; [now left|]. now intros [H|[? [[] _]]].
    + intros cat. split; [now left|]. now intros [H|[? [[] _]]].
  - assert (Hnd' : forall cat, NoDup (users_of (add_users uid u item) cat)).
    { intros cat. rewrite users_of_add.
      destruct (String.eqb (grouping_key item) cat); [|apply Hnd].
      apply set_add_NoDup, Hnd. }
    destruct (IH _ Hnd') as (H1 & H2 & H3).
    split; [exact H1|]. split.
    + intros cat x. rewrite H2, users_of_add.
      destruct (String.eqb (grouping_key item) cat) eqn:E.
      * apply String.eqb_eq in E. rewrite set_add_In. split.
        -- intros [[->|H]|[it [Hin Hk]]].
           ++ right. exists item. split; [now left|exact E].
           ++ now left.
           ++ right. exists it. split; [now right|exact Hk].
        -- intros [H|[it [[Heq|Hin] Hk]]].
           ++ left. now right.
           ++ injection Heq as -> ->. left. now left.
           ++ right. now exists it.
      * apply String.eqb_neq in E. split.
        -- intros [H|[it [Hin Hk]]]; [now left|].
           right. exists it. split; [now right|exact Hk].
        -- intros [H|[it [[Heq|Hin] Hk]]]; [now left| |].
           ++ injection Heq as -> ->. contradiction.
           ++ right. now exists it.
    + intros cat. rewrite H3. unfold add_users. rewrite keys_set. split.
      * intros [[->|H]|[p [Hin Hk]]].
        -- right. exists (uid, item). split; [now left|reflexivity].
        -- now left.
        -- right. exists p. split; [now right|exact Hk].
      * intros [H|[p [[<-|Hin] Hk]]].
        -- left. now right.
        -- left. left. now symmetry.
        -- right. now exists p.
Qed.

Lemma owned_items_In receipts x item :
  In (x, item) (owned_items receipts) <->
  exists r, In r receipts /\ Receipt.googleId r = x /\
            In item (Receipt.items r).
Proof.
  unfold owned_items. rewrite in_flat_map. split.
  - intros [r [Hr Hin]]. apply in_map_iff in Hin.
    destruct Hin as [it [Heq Hit]]. injection Heq as <- <-.
    now exists r.
  - intros [r [Hr [<- Hit]]]. exists r. split; [exact Hr|].
    now apply in_map.
Qed.

Lemma contributing_owners_In cat receipts x :
  In x (contributing_owners cat receipts) <->
  exists item, In (x, item) (owned_items receipts) /\ grouping_key item = cat.
Proof.
  unfold contributing_owners, contributes.
  rewrite nodup_In, in_map_iff. split.
  - intros [r [<- Hr]]. apply filter_In in Hr. destruct Hr as [Hr Hex].
    apply existsb_exists in Hex. destruct Hex as [item [Hit Hk]].
    apply String.eqb_eq in Hk. exists item. split; [|exact Hk].
    apply owned_items_In. now exists r.
  - intros [item [Hin Hk]]. apply owned_items_In in Hin.
    destruct Hin as [r [Hr [<- Hit]]]. exists r. split; [reflexivity|].
    apply filter_In. split; [exact Hr|].
    apply existsb_exists. exists item. split; [exact Hit|].
    now apply String.eqb_eq.
Qed.

(** The set the scan keeps for a category has as many members as there are
    distinct owners contributing to it. *)
Lemma scan_users_size receipts cat :
  List.length (users_of (snd (ComparisonSummary.scan receipts)) cat)
  = List.length (contributing_owners cat receipts).
Proof.
  rewrite scan_usersByCategory.
  destruct (scan_users_facts (owned_items receipts) [])
    as (Hnd & Hin & _); [intros c; constructor|].
  apply Permutation_length, NoDup_Permutation.
  - apply Hnd.
  - apply NoDup_nodup.
  - intros x. rewrite Hin, contributing_owners_In. unfold users_of. simpl.
    intuition.
Qed.

Lemma scan_users_keys receipts cat :
  In cat (keys (snd (ComparisonSummary.scan receipts))) <->
  exists item, In item (all_items receipts) /\ grouping_key item = cat.
Proof.
  rewrite scan_usersByCategory.
  destruct (scan_users_facts (owned_items receipts) [])
    as (_ & _ & Hk); [intros c; constructor|].
  rewrite Hk, <- owned_items_items. simpl. split.
  - intros [[]|[p [Hin Hkey]]]. exists (snd p). split; [|exact Hkey].
    now apply in_map.
  - intros [item [Hin Hkey]]. right. apply in_map_iff in Hin.
    destruct Hin as [p [<- Hp]]. now exists p.
Qed.

(** *** The averages *)

Lemma averages_fold A U cats : forall acc,
  (forall cat, In cat cats -> In cat (keys U)) ->
  exists avgs,
    foldM (ComparisonSummary.add_average A U) cats acc = Ok avgs /\
    (forall cat, In cat (keys avgs) <-> In cat (keys acc) \/ In cat cats) /\
    (forall cat, In cat cats ->
                 obj_get avgs cat = Some (average_value (A, U) cat)) /\
    (forall cat, ~ In cat cats -> obj_get avgs cat = obj_get acc cat) /\
    ((forall cat, In cat cats ->
                  is_finite (average_value (A, U) cat) = true) ->
     all_finite acc -> all_finite avgs).
Proof.
  induction cats as [|c cats IH]; simpl; intros acc Hkeys.
  - exists acc. repeat split; auto; tauto.
  - unfold ComparisonSummary.add_average at 1.
    destruct (obj_get U c) as [s|] eqn:Hs.
    2:{ apply obj_get_None in Hs. exfalso. apply Hs, Hkeys. now left. }
    simpl.
    assert (Hv : js_div (to_number (obj_get A c))
                   (Fin (inject_Z (Z.of_nat (List.length s))))
                 = average_value (A, U) c).
    { unfold average_value, users_of. simpl. now rewrite Hs. }
    rewrite Hv.
    destruct (IH (obj_set acc c (average_value (A, U) c)))
      as (avgs & Hok & Hk & Hin & Hout & Hf); auto.
    exists avgs. split; [exact Hok|]. split; [|split; [|split]].
    + intros cat. rewrite Hk, keys_set. intuition.
    + intros cat [->|Hcat].
      * destruct (in_dec string_dec cat cats) as [Hi|Hni]; [now apply Hin|].
        rewrite (Hout _ Hni). apply obj_get_set_same.
      * now apply Hin.
    + intros cat Hni. rewrite Hout by tauto.
      apply obj_get_set_other. intros ->. apply Hni. now left.
    + intros Hfinv Hfin. apply Hf; [now auto|].
      specialize (Hfinv c (or_introl eq_refl)).
      destruct (average_value (A, U) c); try discriminate.
      now apply all_finite_set.
Qed.

Lemma contributing_owners_nonempty receipts item :
  In item (all_items receipts) ->
  (0 < List.length (contributing_owners (grouping_key item) receipts))%nat.
Proof.
  intros Hin. rewrite <- owned_items_items in Hin.
  apply in_map_iff in Hin. destruct Hin as [[x it] [Heq Hp]].
  simpl in Heq. subst it.
  assert (Hx : In x (contributing_owners (grouping_key item) receipts)).
  { apply contributing_owners_In. now exists item. }
  destruct (contributing_owners (grouping_key item) receipts); [destruct Hx|].
  simpl. lia.
Qed.

Lemma allTotals_facts receipts :
  finite_prices receipts = true ->
  let o := fst (ComparisonSummary.scan receipts) in
  all_finite o /\
  NoDup (keys o) /\
  (forall k, In k (keys o) <->
             exists item, In item (all_items receipts) /\
                          grouping_key item = k) /\
  (forall k, total_of o k == category_sum k (all_items receipts)) /\
  qsum_vals o == qsum (map price_of (all_items receipts)).
Proof.
  intros Hfin. rewrite scan_allTotals.
  apply (fold_totals_empty _ add_user_item_bumps). exact Hfin.
Qed.

Lemma userTotals_facts receipts :
  finite_prices receipts = true ->
  let o := ComparisonSummary.userTotals receipts in
  all_finite o /\
  NoDup (keys o) /\
  (forall k, In k (keys o) <->
             exists item, In item (all_items receipts) /\
                          grouping_key item = k) /\
  (forall k, total_of o k == category_sum k (all_items receipts)) /\
  qsum_vals o == qsum (map price_of (all_items receipts)).
Proof.
  intros Hfin. rewrite userTotals_flat.
  apply (fold_totals_empty _ add_user_item_bumps). exact Hfin.
Qed.

Lemma positive_count_nonzero n :
  (0 < n)%nat -> ~ inject_Z (Z.of_nat n) == 0.
Proof.
  intros Hn H. unfold Qeq in H. simpl in H. lia.
Qed.

(** The value stored for a category with contributions. *)
Lemma average_value_scan receipts cat :
  finite_prices receipts = true ->
  In cat (keys (fst (ComparisonSummary.scan receipts))) ->
  exists v,
    average_value (ComparisonSummary.scan receipts) cat = Fin v /\
    (0 < List.length (contributing_owners cat receipts))%nat /\
    v == category_sum cat (all_items receipts)
         / inject_Z (Z.of_nat (List.length (contributing_owners cat receipts))).
Proof.
  intros Hfin Hin.
  destruct (allTotals_facts receipts Hfin) as (Hf & _ & Hk & Ht & _).
  destruct (finite_total _ cat Hf Hin) as [x [Hg Hx]].
  apply Hk in Hin. destruct Hin as [item [Hitem <-]].
  pose proof (contributing_owners_nonempty receipts item Hitem) as Hpos.
  set (cat := grouping_key item) in *.
  unfold average_value. rewrite Hg, scan_users_size. simpl.
  pose proof (positive_count_nonzero _ Hpos) as Hnz.
  destruct (Qeq_bool _ 0) eqn:E; [apply Qeq_bool_eq in E; contradiction|].
  eexists. split; [reflexivity|]. split; [exact Hpos|].
  now rewrite Hx, Ht.
Qed.

Lemma allTotals_get receipts cat :
  obj_get (fst (ComparisonSummary.scan receipts)) cat
  = category_total cat (all_items receipts).
Proof.
  rewrite scan_allTotals. apply (fold_get_empty _ add_user_item_get).
Qed.

Lemma allTotals_keys receipts cat :
  In cat (keys (fst (ComparisonSummary.scan receipts))) <->
  exists item, In item (all_items receipts) /\ grouping_key item = cat.
Proof.
  rewrite scan_allTotals. apply (fold_keys _ add_user_item_get).
Qed.

(** The averages are computed without throwing; they have an entry for the
    categories with a line item, holding the value the scan gives them. *)
Lemma averages_total receipts :
  exists averages,
    ComparisonSummary.averages (ComparisonSummary.scan receipts)
    = Ok averages /\
    (forall cat,
       In cat (keys averages) <->
       exists item, In item (all_items receipts) /\ grouping_key item = cat) /\
    (forall cat, In cat (keys averages) ->
       obj_get averages cat
       = Some (average_value (ComparisonSummary.scan receipts) cat)) /\
    ((forall cat, In cat (keys averages) ->
        is_finite (average_value (ComparisonSummary.scan receipts) cat)
        = true) ->
     all_finite averages).
Proof.
  pose proof (allTotals_keys receipts) as Hk.
  pose proof (scan_users_keys receipts) as Hu.
  unfold ComparisonSummary.averages.
  destruct (ComparisonSummary.scan receipts) as [A U].
  simpl in Hk, Hu.
  destruct (averages_fold A U (Object_keys A) [])
    as (avgs & Hok & Hka & Hin & _ & Hf).
  { intros cat Hc. apply Hu, Hk.
    now apply (proj1 (Object_keys_In A cat)). }
  assert (Hkeys : forall cat, In cat (keys avgs) <-> In cat (Object_keys A)).
  { intros cat. rewrite Hka. simpl. tauto. }
  exists avgs. split; [exact Hok|]. split; [|split].
  - intros cat. now rewrite Hkeys, (Object_keys_In A cat).
  - intros cat Hc. now apply Hin, Hkeys.
  - intros Hfin. apply Hf; [|constructor].
    intros cat Hc. now apply Hfin, Hkeys.
Qed.

Lemma averages_facts receipts :
  finite_prices receipts = true ->
  exists averages,
    ComparisonSummary.averages (ComparisonSummary.scan receipts)
    = Ok averages /\
    all_finite averages /\
    (forall cat,
       In cat (keys averages) <->
       exists item, In item (all_items receipts) /\ grouping_key item = cat) /\
    (forall cat, In cat (keys averages) ->
       exists v,
         obj_get averages cat = Some (Fin v) /\
         (0 < List.length (contributing_owners cat receipts))%nat /\
         v == category_sum cat (all_items receipts)
              / inject_Z
                  (Z.of_nat (List.length (contributing_owners cat receipts)))).
Proof.
  intros Hfin.
  destruct (averages_total receipts) as (avgs & Hok & Hk & Hv & Hf).
  assert (Hval : forall cat, In cat (keys avgs) ->
            exists v,
              average_value (ComparisonSummary.scan receipts) cat = Fin v /\
              (0 < List.length (contributing_owners cat receipts))%nat /\
              v == category_sum cat (all_items receipts)
                   / inject_Z
                       (Z.of_nat
                          (List.length (contributing_owners cat receipts)))).
  { intros cat Hc. apply average_value_scan; [exact Hfin|].
    now apply allTotals_keys, Hk. }
  exists avgs. split; [exact Hok|]. split; [|split; [exact Hk|]].
  - apply Hf. intros cat Hc. destruct (Hval cat Hc) as [v [-> _]].
    reflexivity.
  - intros cat Hc. destruct (Hval cat Hc) as [v [Hv' Hrest]].
    exists v. split; [|exact Hrest]. rewrite <- Hv'. now apply Hv.
Qed.



(** *** Signs and magnitudes *)

Lemma or_zero_finite o k :
  all_finite o ->
  exists v, or_zero (obj_get o k) = Fin v /\ v == total_of o k.
Proof.
  intros Hfin. unfold or_zero, total_of.
  destruct (obj_get o k) as [x|] eqn:Hg; [|exists 0; split; [reflexivity|lra]].
  destruct (all_finite_get _ _ _ Hfin Hg) as [v ->].
  destruct (truthy (Fin v)) eqn:Ht.
  - exists v. split; [reflexivity|simpl; lra].
  - exists 0. split; [reflexivity|]. apply truthy_zero in Ht. simpl. lra.
Qed.

Lemma Qfloor_ge z x : (z <= Qfloor x)%Z <-> inject_Z z <= x.
Proof.
  split; intros H.
  - rewrite Zle_Qle in H. pose proof (Qfloor_le x). lra.
  - destruct (Z_lt_le_dec (Qfloor x) z) as [Hlt|Hle]; [|exact Hle].
    assert (H1 : (Qfloor x + 1 <= z)%Z) by lia.
    rewrite Zle_Qle in H1. pose proof (Qlt_floor x). lra.
Qed.

Lemma js_gt_zero d : js_gt (Fin (inject_Z d)) (Fin 0) = true <-> (1 <= d)%Z.
Proof.
  simpl. rewrite negb_true_iff. split.
  - intros H. destruct (Z_lt_le_dec d 1) as [Hlt|Hle]; [|exact Hle].
    assert (Hq : inject_Z d <= 0).
    { change 0 with (inject_Z 0). rewrite <- Zle_Qle. lia. }
    apply Qle_bool_iff in Hq. congruence.
  - intros H. destruct (Qle_bool (inject_Z d) 0) eqn:E; [|reflexivity].
    apply Qle_bool_iff in E. change 0 with (inject_Z 0) in E.
    rewrite <- Zle_Qle in E. lia.
Qed.

(** The entry of a category whose two sides are finite. *)
Lemma entry_for_finite userTotals averages cat a b :
  or_zero (obj_get userTotals cat) = Fin a ->
  or_zero (obj_get averages cat) = Fin b ->
  let d := Qfloor (a - b + (1 # 2)) in
  Comparison.difference (entry_for userTotals averages cat)
  = Fin (inject_Z (Z.abs d)) /\
  (Comparison.isHigher (entry_for userTotals averages cat) = true <->
   (1 # 2) <= a - b).
Proof.
  intros Ha Hb d. unfold entry_for. rewrite Ha, Hb.
  cbn [Comparison.difference Comparison.isHigher js_sub js_neg js_add
       Math_round Math_abs].
  change (Qfloor (a + - b + (1 # 2))) with d.
  split; [reflexivity|].
  rewrite js_gt_zero. unfold d. rewrite Qfloor_ge.
  change (inject_Z 1) with 1. split; intros H; lra.
Qed.

Lemma avgSpent_spec receipts averages cat :
  finite_prices receipts = true ->
  ComparisonSummary.averages (ComparisonSummary.scan receipts) = Ok averages ->
  exists b,
    or_zero (obj_get averages cat) = Fin b /\
    b == peer_average cat receipts.
Proof.
  intros Hfin Hok.
  destruct (averages_facts receipts Hfin) as (avgs & Hok' & Hf & Hk & Hv).
  rewrite Hok in Hok'. injection Hok' as <-.
  destruct (or_zero_finite averages cat Hf) as [b [Hb Hq]].
  exists b. split; [exact Hb|]. rewrite Hq. unfold total_of, peer_average.
  destruct (obj_get averages cat) as [x|] eqn:Hg.
  - assert (Hin : In cat (keys averages)).
    { destruct (in_dec string_dec cat (keys averages)) as [H|H]; [exact H|].
      apply obj_get_None in H. congruence. }
    destruct (Hv cat Hin) as [v [Hg' [Hpos Hval]]].
    rewrite Hg in Hg'. injection Hg' as ->. simpl.
    destruct (contributing_owners cat receipts); [simpl in Hpos; lia|].
    exact Hval.
  - apply obj_get_None in Hg.
    destruct (contributing_owners cat receipts) as [|x owners] eqn:Ho;
      [lra|].
    exfalso. apply Hg, Hk.
    assert (Hx : In x (contributing_owners cat receipts))
      by (rewrite Ho; now left).
    apply contributing_owners_In in Hx. destruct Hx as [item [Hin Hkey]].
    exists item. split; [|exact Hkey].
    rewrite <- owned_items_items.
    change item with (snd (x, item)). now apply in_map.
Qed.




(** The scenario of the specification: the owner's total equals the peer
    average of the three contributing owners. *)
Example equal_to_average_scenario :
  ComparisonSummary.compare peers_user peers_all
  = Ok [Comparison.Entry "Food" (Fin 0) false;
        Comparison.Entry "Other (Type Category)" (Fin 8) false] /\
  peer_average "Food" peers_all == 100 /\
  List.length (contributing_owners "Food" peers_all) = 3%nat.
Proof. repeat split. Qed.

(** The scenario of the specification for uploads: a PDF is refused by the
    filter, an image passes. *)
Example pdf_upload_is_refused :
  fileFilter "application/pdf" = false /\ fileFilter "image/png" = true.
Proof. split; reflexivity. Qed.

(** The scenario of the specification for the aggregator. *)
Example aggregator_scenario :
  SpendingSummary.summary sample_receipts
  = [Summary.Entry "Food" (Fin 40) (Fin 67);
     Summary.Entry "Transport" (Fin 20) (Fin 33)].
Proof. reflexivity. Qed.

(** ** The two aggregations *)

(** C10. The aggregation inside GET /spending-summary and the one inside
    GET /api/ai-summary are the same function: on the same records they
    compute the same totals, the same grand total and the same list of
    [{ name, amount, percentage }] entries. *)
Theorem summaries_agree (receipts : list Receipt.t) :
  AiSummary.categoryTotals receipts
  = SpendingSummary.categoryTotals receipts /\
  AiSummary.totalSpent (AiSummary.categoryTotals receipts)
  = SpendingSummary.totalSpent (SpendingSummary.categoryTotals receipts) /\
  AiSummary.receiptSummary receipts = SpendingSummary.summary receipts.
Proof.
  split; [reflexivity|]. split; reflexivity.
Qed.

(** ** Manual expense entry *)

Lemma map_item_stored random item :
  stored_as item (Expense.map_item random item).
Proof.
  unfold stored_as, Expense.map_item. simpl.
  split; [|split].
  - now destruct (Expense.description item) as [[|c s]|].
  - now destruct (Expense.category item) as [[|c s]|].
  - destruct (parseFloat (Expense.amount item)) as [| | |q] eqn:Hp; simpl.
    + exists (Fin 0). repeat split; try discriminate.
    + exists PInf. repeat split; try discriminate.
    + exists NInf. repeat split; try discriminate.
    + destruct (negb (Qeq_bool q 0)) eqn:E.
      * exists (Fin q). repeat split; try discriminate.
      * exists (Fin 0). repeat split; try discriminate.
Qed.

(** C7 (amended). Every line item of a manual entry is stored with the
    description ["Unknown"] when the description is absent or empty, with the
    sentinel category when the category is absent or empty, and with the
    price [parseFloat(amount)], except that a [NaN] (an amount that is not
    numeric) or a zero is stored as 0; the stored price is never [NaN]. *)
Theorem manual_entry_items_stored random items : forall k,
  Forall2 stored_as items (Expense.map_items random k items).
Proof.
  induction items as [|item items IH]; simpl; intros k; constructor.
  - apply map_item_stored.
  - apply IH.
Qed.

(** C7, as stated, fails: a negative amount is accepted and stored as a
    negative price. *)
Lemma negative_price_is_stored :
  fst (post_expense empty_store 1000 (fun _ => 7%N) (Some "Shop")
         (Some [refund_item]) (Some "u1"))
  = Responded
      (Response 201
         (ExpenseAdded
            (Receipt.Make "u1" (Some "7") (Some "Shop") (Some 1000%Z)
               [Receipt.Item (Some "7") (Some "Refund") (Some "Food")
                  (Some (Fin (-5)))]))) /\
  Receipt.price (Expense.map_item 7 refund_item) = Some (Fin (-5)) /\
  ~ 0 <= -5.
Proof.
  split; [reflexivity|]. split; [reflexivity|]. lra.
Qed.

(** ** User-profile creation *)

Lemma present_Some v g : present v = Some g -> v = Some g.
Proof.
  destruct v as [[|c s]|]; simpl; intros H; try discriminate.
  now injection H as <-.
Qed.

Lemma find_app_None {A} (f : A -> bool) l x :
  List.find f l = None -> f x = true -> List.find f (l ++ [x]) = Some x.
Proof.
  induction l as [|a l IH]; simpl; intros Hl Hx.
  - now rewrite Hx.
  - destruct (f a); [discriminate|]. now apply IH.
Qed.

(** C6. User-profile creation is idempotent per owner identifier: when a
    call of POST /api/users has answered with a profile, a second call with
    the same owner identifier, whatever its other fields and its time,
    answers with that same profile and leaves the store as it was, so no
    second record is created. *)
Theorem create_user_idempotent (s s1 : MemStore.t) (now1 now2 : Z)
    (body1 body2 : User.draft) (user : User.t) :
  User.d_googleId body2 = User.d_googleId body1 ->
  create_user s now1 body1 = (Responded (Response 201 (Profile user)), s1) ->
  create_user s1 now2 body2 = (Responded (Response 201 (Profile user)), s1).
Proof.
  intros Hid. unfold create_user. rewrite Hid.
  destruct s as [c rs us]. cbn [User_findOne User_save MemStore.store].
  unfold MemStore.findOne, MemStore.save_user.
  cbn [MemStore.connected MemStore.users MemStore.receipts].
  destruct c; [|discriminate].
  destruct (User.d_googleId body1) as [g|] eqn:Hg; cbn [bind try_catch_write].
  - destruct (List.find (MemStore.owned_by g) us) as [u|] eqn:Hfind.
    + intros H. injection H as <- <-.
      cbn [MemStore.connected MemStore.users bind]. now rewrite Hfind.
    + destruct (present (Some g)) as [g'|] eqn:Hp; [|discriminate].
      destruct (present (User.d_email body1)) as [e|]; [|discriminate].
      destruct (existsb (MemStore.owned_by g') us); [discriminate|].
      cbn [bind]. intros H. injection H as <- <-.
      cbn [MemStore.connected MemStore.users bind].
      apply present_Some in Hp. injection Hp as <-.
      rewrite (find_app_None _ _ _ Hfind); [reflexivity|].
      unfold MemStore.owned_by. cbn [User.googleId]. apply String.eqb_refl.
  - discriminate.
Qed.

Lemma create_user_idempotent_witness :
  create_user empty_store 1000 first_signup
  = (Responded (Response 201 (Profile first_profile)),
     MemStore.Make true [] [first_profile]) /\
  create_user (MemStore.Make true [] [first_profile]) 2000 second_signup
  = (Responded (Response 201 (Profile first_profile)),
     MemStore.Make true [] [first_profile]).
Proof.
  split; [reflexivity|].
  apply (create_user_idempotent empty_store _ 1000 2000
           first_signup second_signup first_profile);
    reflexivity.
Defined.

(** X19. POST /api/users keeps at most one profile per owner identifier:
    on any in-memory store whose profiles have distinct owner identifiers,
    they are still distinct after the call. *)
Lemma create_user_keeps_owners_unique (s : MemStore.t) (now : Z)
    (body : User.draft) :
  NoDup (map User.googleId (MemStore.users s)) ->
  NoDup (map User.googleId (MemStore.users (snd (create_user s now body)))).
Proof.
  intros Hnd. unfold create_user.
  destruct s as [c rs us]. cbn [User_findOne User_save MemStore.store].
  unfold MemStore.findOne, MemStore.save_user.
  cbn [MemStore.connected MemStore.users MemStore.receipts] in *.
  destruct c; [|exact Hnd].
  destruct (User.d_googleId body) as [g|]; cbn [bind try_catch_write].
  - destruct (List.find (MemStore.owned_by g) us); [exact Hnd|].
    destruct (present (Some g)) as [g'|]; [|exact Hnd].
    destruct (present (User.d_email body)) as [e|]; [|exact Hnd].
    destruct (existsb (MemStore.owned_by g') us) eqn:Hex; [exact Hnd|].
    cbn [bind try_catch_write snd MemStore.users]. rewrite map_app.
    cbn [map User.googleId].
    apply NoDup_app; [exact Hnd|repeat constructor; intros []|].
    intros x Hin [<-|[]].
    apply in_map_iff in Hin. destruct Hin as [u [Hu Hin]].
    assert (Hex' : existsb (MemStore.owned_by g') us = true).
    { apply existsb_exists. exists u. split; [exact Hin|].
      unfold MemStore.owned_by. rewrite Hu. apply String.eqb_refl. }
    congruence.
  - exact Hnd.
Qed.

(** ** Failures *)

(** A handler whose body sits in a [try] always answers. *)
Lemma try_catch_responds body handler :
  exists r, try_catch body handler = Responded r.
Proof.
  destruct body as [r|e]; simpl; eauto.
Qed.

Lemma try_catch_write_responds {S} (s : S) body handler :
  exists r, fst (try_catch_write s body handler) = Responded r.
Proof.
  destruct body as [[r s']|e]; simpl; eauto.
Qed.

Section Caught.

Context {S : Type} {store : Store S}.
Variable file : Type.
Variable handleReceiptUpload : option file -> Exc receipt_data.
Variable generateAISpendingSummary : list Summary.entry -> Exc string.

(** Every handler but GET /comparison-summary answers whatever the store
    and the adapters do. *)
Lemma guarded_handlers_respond (s : S) (now : Z) (random : nat -> N)
    (googleId vendor : option string) (owner : string)
    (req_file : option file) (items : option (list Expense.item))
    (req_body : User.draft) (update : User.patch) :
  (exists r, fst (upload handleReceiptUpload s googleId req_file)
             = Responded r) /\
  (exists r, spending_summary s now googleId = Responded r) /\
  (exists r, get_receipts s googleId = Responded r) /\
  (exists r, fst (post_expense s now random vendor items googleId)
             = Responded r) /\
  (exists r, fst (put_user s now owner update) = Responded r) /\
  (exists r, fst (create_user s now req_body) = Responded r) /\
  (exists r, get_user s owner = Responded r) /\
  (exists r, ai_summary generateAISpendingSummary s now googleId
             = Responded r).
Proof.
  repeat split;
    first [apply try_catch_responds | apply try_catch_write_responds].
Qed.

(** GET /comparison-summary lets a failure of its first query escape. *)
Lemma comparison_summary_first_query_escapes (s : S) (now : Z)
    (query_googleId : option string) (googleId : string) (e : exn) :
  present query_googleId = Some googleId ->
  Receipt_find s (Query (Some googleId) (Some (days_before now 30)))
  = Throw e ->
  comparison_summary s now query_googleId = Escaped e.
Proof.
  intros Hp Hfind. unfold comparison_summary. now rewrite Hp, Hfind.
Qed.

(** So does a failure of its second query. *)
Lemma comparison_summary_second_query_escapes (s : S) (now : Z)
    (query_googleId : option string) (googleId : string)
    (userReceipts : list Receipt.t) (e : exn) :
  present query_googleId = Some googleId ->
  Receipt_find s (Query (Some googleId) (Some (days_before now 30)))
  = Ok userReceipts ->
  Receipt_find s (Query None (Some (days_before now 30))) = Throw e ->
  comparison_summary s now query_googleId = Escaped e.
Proof.
  intros Hp Hfind1 Hfind2. unfold comparison_summary.
  now rewrite Hp, Hfind1; simpl; rewrite Hfind2.
Qed.

(** *** What the handlers answer when their queries succeed *)

Lemma spending_summary_answer (s : S) (now : Z)
    (query_googleId : option string) (googleId : string)
    (receipts : list Receipt.t) :
  present query_googleId = Some googleId ->
  Receipt_find s (Query (Some googleId) (Some (days_before now 30)))
  = Ok receipts ->
  spending_summary s now query_googleId
  = Responded (Response 200 (SummaryList (SpendingSummary.summary receipts))).
Proof.
  intros Hp Hfind. unfold spending_summary. now rewrite Hp, Hfind.
Qed.

(** X20. When its query succeeds, GET /api/ai-summary hands the text
    generator exactly the list GET /spending-summary answers with, and
    answers 200 with the generated text, or 500 when the generator fails. *)
Lemma ai_summary_answer (s : S) (now : Z)
    (query_googleId : option string) (googleId : string)
    (receipts : list Receipt.t) :
  present query_googleId = Some googleId ->
  Receipt_find s (Query (Some googleId) (Some (days_before now 30)))
  = Ok receipts ->
  ai_summary generateAISpendingSummary s now query_googleId
  = match generateAISpendingSummary (SpendingSummary.summary receipts) with
    | Ok summary => Responded (Response 200 (AiText summary))
    | Throw _ =>
        Responded (Response 500 (JsonError "Failed to generate AI summary"))
    end.
Proof.
  intros Hp Hfind. unfold ai_summary. rewrite Hp, Hfind. simpl.
  change (AiSummary.receiptSummary receipts)
    with (SpendingSummary.summary receipts).
  now destruct (generateAISpendingSummary (SpendingSummary.summary receipts)).
Qed.

(** An accepted manual entry is saved and answered with its line items
    mapped in order. *)
Lemma post_expense_answer (s s' : S) (now : Z) (random : nat -> N)
    (body_vendor body_googleId : option string) (vendor googleId : string)
    (item : Expense.item) (items : list Expense.item) :
  present body_googleId = Some googleId ->
  present body_vendor = Some vendor ->
  let receipt :=
    Receipt.Make googleId (Some (toString (random 0%nat))) (Some vendor)
      (Some now) (Expense.map_items random 1 (item :: items)) in
  Receipt_save s receipt = Ok s' ->
  post_expense s now random body_vendor (Some (item :: items)) body_googleId
  = (Responded (Response 201 (ExpenseAdded receipt)), s').
Proof.
  intros Hg Hv receipt Hsave. unfold post_expense. rewrite Hg, Hv.
  fold receipt. now rewrite Hsave.
Qed.

Lemma comparison_summary_answer (s : S) (now : Z)
    (query_googleId : option string) (googleId : string)
    (userReceipts allReceipts : list Receipt.t)
    (comparison : list Comparison.entry) :
  present query_googleId = Some googleId ->
  Receipt_find s (Query (Some googleId) (Some (days_before now 30)))
  = Ok userReceipts ->
  Receipt_find s (Query None (Some (days_before now 30))) = Ok allReceipts ->
  ComparisonSummary.compare userReceipts allReceipts = Ok comparison ->
  comparison_summary s now query_googleId
  = Responded (Response 200 (ComparisonList comparison)).
Proof.
  intros Hp Hfind1 Hfind2. unfold comparison_summary, ComparisonSummary.compare.
  rewrite Hp, Hfind1. simpl. rewrite Hfind2. simpl.
  destruct (ComparisonSummary.averages (ComparisonSummary.scan allReceipts));
    simpl; [|discriminate].
  now intros [= <-].
Qed.


End Caught.

(** C8, at its failing input: with the store unreachable, the query of
    GET /comparison-summary throws and the exception leaves the handler, no
    response being sent; GET /spending-summary, on the same store and
    request, answers 500. *)
Theorem comparison_summary_failure_escapes :
  comparison_summary unreachable_store 1000 (Some "u1")
  = Escaped (StoreError "the store is not reachable") /\
  spending_summary unreachable_store 1000 (Some "u1")
  = Responded (Response 500 (Text "Error generating summary")).
Proof. split; reflexivity. Qed.

(** * Further properties of the handlers *)

(** ** The spending summary *)

Lemma add_item_keys_NoDup o item :
  NoDup (keys o) -> NoDup (keys (SpendingSummary.add_item o item)).
Proof.
  intros Hnd. unfold SpendingSummary.add_item.
  apply keys_set_NoDup.
  destruct (negb (truthy_opt (obj_get o _))); [|exact Hnd].
  now apply keys_set_NoDup.
Qed.

Lemma categoryTotals_NoDup receipts :
  NoDup (keys (SpendingSummary.categoryTotals receipts)).
Proof.
  rewrite categoryTotals_flat.
  assert (H : forall items o,
            NoDup (keys o) ->
            NoDup (keys (fold_left SpendingSummary.add_item items o))).
  { induction items as [|item items IH]; simpl; intros o Hnd; [exact Hnd|].
    now apply IH, add_item_keys_NoDup. }
  apply H. constructor.
Qed.

Lemma summary_names receipts :
  map Summary.name (SpendingSummary.summary receipts)
  = Object_keys (SpendingSummary.categoryTotals receipts).
Proof.
  unfold SpendingSummary.summary, Object_keys. rewrite map_map.
  apply map_ext. now intros [name amount].
Qed.


Lemma nonneg_price_finite item :
  nonneg_price item = true -> finite_price item = true.
Proof.
  unfold nonneg_price, finite_price.
  now destruct (Receipt.price item) as [[| | |q]|].
Qed.

Lemma nonneg_prices_finite receipts :
  nonneg_prices receipts = true -> finite_prices receipts = true.
Proof.
  unfold nonneg_prices, finite_prices. rewrite !forallb_forall.
  intros H item Hin. now apply nonneg_price_finite, H.
Qed.

Lemma nonneg_price_of item : nonneg_price item = true -> 0 <= price_of item.
Proof.
  unfold nonneg_price, price_of.
  destruct (Receipt.price item) as [[| | |q]|]; try discriminate.
  simpl. apply Qle_bool_imp_le.
Qed.

Lemma category_sum_nonneg k items :
  forallb nonneg_price items = true -> 0 <= category_sum k items.
Proof.
  induction items as [|item items IH]; intros H.
  - unfold category_sum. simpl. lra.
  - simpl in H. apply andb_prop in H. destruct H as [Hi Hr].
    rewrite category_sum_cons. specialize (IH Hr).
    pose proof (nonneg_price_of item Hi).
    destruct (String.eqb (grouping_key item) k); lra.
Qed.

Lemma value_le_qsum_vals (o : obj number) kv :
  (forall kv', In kv' o -> 0 <= qval (snd kv')) ->
  In kv o -> qval (snd kv) <= qsum_vals o.
Proof.
  unfold qsum_vals. induction o as [|kv0 o IH]; simpl; intros Hpos Hin.
  - destruct Hin.
  - assert (H0 : 0 <= qsum (map (fun kv => qval (snd kv)) o)).
    { clear IH Hin. induction o as [|kv1 o IHo]; simpl; [lra|].
      pose proof (Hpos kv1 (or_intror (or_introl eq_refl))).
      assert (0 <= qsum (map (fun kv => qval (snd kv)) o)).
      { apply IHo. intros kv' [->|H']; apply Hpos; [now left|].
        right. now right. }
      lra. }
    pose proof (Hpos kv0 (or_introl eq_refl)).
    destruct Hin as [->|Hin]; [lra|].
    assert (qval (snd kv) <= qsum (map (fun kv => qval (snd kv)) o)).
    { apply IH; [|exact Hin]. intros kv' H'. apply Hpos. now right. }
    lra.
Qed.

Lemma round_percentage_bounds x :
  0 <= x -> x <= 100 ->
  (0 <= Qfloor (x + (1 # 2)) <= 100)%Z.
Proof.
  intros Hlo Hhi. split.
  - apply Qfloor_ge. change (inject_Z 0) with 0. lra.
  - destruct (Z_lt_le_dec 100 (Qfloor (x + (1 # 2)))) as [Hgt|Hle];
      [|exact Hle].
    assert (H : (101 <= Qfloor (x + (1 # 2)))%Z) by lia.
    apply Qfloor_ge in H. change (inject_Z 101) with 101 in H. lra.
Qed.



Lemma category_sum_perm k items items' :
  Permutation items items' -> category_sum k items == category_sum k items'.
Proof.
  induction 1 as [|x l l' Hp IH|x y l|l l' l'' H1 IH1 H2 IH2].
  - reflexivity.
  - rewrite !category_sum_cons, IH. reflexivity.
  - rewrite !category_sum_cons. lra.
  - now rewrite IH1.
Qed.

Lemma price_sum_perm items items' :
  Permutation items items' ->
  qsum (map price_of items) == qsum (map price_of items').
Proof.
  intros H. now apply qsum_perm, Permutation_map.
Qed.

Lemma numeq_sign_inf c : numeq (sign_inf c) (sign_inf c).
Proof. now destruct c. Qed.

Lemma percentage_of_compat t t' a a' :
  t == t' -> a == a' ->
  numeq (percentage_of (Fin t') (Fin a')) (percentage_of (Fin t) (Fin a)).
Proof.
  intros Ht Ha.
  destruct (Qeq_dec t 0) as [Hz|Hnz].
  - rewrite (percentage_of_zero t a Hz).
    rewrite (percentage_of_zero t' a') by (now rewrite <- Ht).
    rewrite <- Ha. apply numeq_sign_inf.
  - rewrite (percentage_of_nonzero t a Hnz).
    rewrite (percentage_of_nonzero t' a') by (now rewrite <- Ht).
    unfold numeq.
    rewrite (Qfloor_comp (a' / t' * 100 + (1 # 2)) (a / t * 100 + (1 # 2)))
      by (now rewrite Ht, Ha).
    reflexivity.
Qed.

Lemma summary_of_entry receipts k v :
  In (k, v) (Object_entries (SpendingSummary.categoryTotals receipts)) ->
  In (Summary.Entry k v
        (percentage_of
           (SpendingSummary.totalSpent
              (SpendingSummary.categoryTotals receipts)) v))
     (SpendingSummary.summary receipts).
Proof.
  intros Hin. unfold SpendingSummary.summary.
  apply in_map_iff. exists (k, v). split; [reflexivity|exact Hin].
Qed.



(** ** The peer comparison *)


Lemma userTotals_keys receipts cat :
  In cat (keys (ComparisonSummary.userTotals receipts)) <->
  exists item, In item (all_items receipts) /\ grouping_key item = cat.
Proof.
  rewrite userTotals_flat. apply (fold_keys _ add_user_item_get).
Qed.


Lemma entry_of_comparison userTotals averages e :
  In e (ComparisonSummary.comparison userTotals averages) ->
  e = entry_for userTotals averages (Comparison.category e).
Proof.
  unfold ComparisonSummary.comparison. rewrite push_entries. cbn [app].
  intros Hin. apply in_map_iff in Hin. now destruct Hin as [cat [<- _]].
Qed.

(** X6. In every answer of the comparison, an entry flagged [isHigher] has a
    difference greater than zero, and an entry whose difference is zero is
    not flagged: "higher by 0" is never reported. *)
Theorem higher_entries_have_positive_difference userTotals averages e :
  In e (ComparisonSummary.comparison userTotals averages) ->
  (Comparison.isHigher e = true ->
   js_gt (Comparison.difference e) (Fin 0) = true) /\
  (numeq (Comparison.difference e) (Fin 0) ->
   Comparison.isHigher e = false).
Proof.
  intros Hin. apply entry_of_comparison in Hin. rewrite Hin.
  unfold entry_for. cbn [Comparison.difference Comparison.isHigher].
  destruct (js_sub _ _) as [| | |q]; cbn [Math_round Math_abs].
  - split; [discriminate|reflexivity].
  - split; reflexivity || (intros H; destruct H).
  - split; [discriminate|reflexivity].
  - set (d := Qfloor (q + (1 # 2))). split.
    + intros H. apply js_gt_zero in H.
      change (Qabs (inject_Z d)) with (inject_Z (Z.abs d)).
      apply js_gt_zero. lia.
    + intros H. unfold numeq in H.
      change (Qabs (inject_Z d)) with (inject_Z (Z.abs d)) in H.
      apply not_true_is_false. intros Hgt. apply js_gt_zero in Hgt.
      clearbody d. unfold Qeq in H. simpl in H. lia.
Qed.

Lemma higher_entries_have_positive_difference_witness :
  (Comparison.isHigher (Comparison.Entry "Food" (Fin 25) true) = true ->
   js_gt (Comparison.difference (Comparison.Entry "Food" (Fin 25) true))
         (Fin 0) = true) /\
  (numeq (Comparison.difference (Comparison.Entry "Food" (Fin 25) true))
         (Fin 0) ->
   Comparison.isHigher (Comparison.Entry "Food" (Fin 25) true) = false).
Proof.
  apply (higher_entries_have_positive_difference
           [("Food", Fin 125)] [("Food", Fin 100)]).
  left. reflexivity.
Defined.

Lemma category_sum_app k items items' :
  category_sum k (items ++ items')
  == category_sum k items + category_sum k items'.
Proof.
  induction items as [|item items IH]; simpl.
  - unfold category_sum at 2. simpl. lra.
  - rewrite !category_sum_cons, IH. lra.
Qed.

Lemma category_sum_no_contribution cat r :
  contributes cat r = false -> category_sum cat (Receipt.items r) == 0.
Proof.
  unfold contributes. intros H.
  induction (Receipt.items r) as [|item items IH].
  - reflexivity.
  - simpl in H. apply orb_false_elim in H. destruct H as [Hi Hr].
    rewrite category_sum_cons, Hi, (IH Hr). lra.
Qed.

Lemma owned_items_incl g receipts item :
  In item (all_items (owned_receipts g receipts)) ->
  In item (all_items receipts).
Proof.
  unfold all_items, owned_receipts. rewrite !in_flat_map.
  intros [r [Hr Hi]]. apply filter_In in Hr. exists r. tauto.
Qed.

Lemma owned_receipts_finite g receipts :
  finite_prices receipts = true ->
  finite_prices (owned_receipts g receipts) = true.
Proof.
  unfold finite_prices. rewrite !forallb_forall.
  intros H item Hin. apply H. now apply (owned_items_incl g).
Qed.

Lemma sole_contributor_sum g cat receipts :
  (forall r, In r receipts -> contributes cat r = true ->
             Receipt.googleId r = g) ->
  category_sum cat (all_items (owned_receipts g receipts))
  == category_sum cat (all_items receipts).
Proof.
  unfold all_items, owned_receipts.
  induction receipts as [|r rs IH]; intros Hsole; [reflexivity|].
  assert (IH' : category_sum cat
                  (flat_map Receipt.items
                     (filter (fun r => String.eqb (Receipt.googleId r) g) rs))
                == category_sum cat (flat_map Receipt.items rs)).
  { apply IH. intros r' Hin. apply Hsole. now right. }
  cbn [filter flat_map].
  destruct (String.eqb (Receipt.googleId r) g) eqn:E; cbn [flat_map].
  - rewrite !category_sum_app, IH'. reflexivity.
  - rewrite category_sum_app, IH'.
    destruct (contributes cat r) eqn:Hc.
    + apply String.eqb_neq in E. exfalso. apply E.
      apply Hsole; [now left|exact Hc].
    + rewrite (category_sum_no_contribution cat r Hc). lra.
Qed.

Lemma contributor_in_owners cat receipts r :
  In r receipts -> contributes cat r = true ->
  In (Receipt.googleId r) (contributing_owners cat receipts).
Proof.
  intros Hr Hc. unfold contributing_owners.
  apply nodup_In, in_map, filter_In. now split.
Qed.



Lemma peer_average_nonneg cat receipts :
  nonneg_prices receipts = true -> 0 <= peer_average cat receipts.
Proof.
  intros Hnn. unfold peer_average.
  destruct (contributing_owners cat receipts) as [|x l]; [lra|].
  pose proof (category_sum_nonneg cat (all_items receipts) Hnn) as Hs.
  apply Qle_shift_div_l; [|lra].
  change 0 with (inject_Z 0). rewrite <- Zlt_Qlt. simpl. lia.
Qed.



(** ** Validation and failures *)

Section Answers.

Context {S : Type} {store : Store S}.
Variable file : Type.
Variable handleReceiptUpload : option file -> Exc receipt_data.
Variable generateAISpendingSummary : list Summary.entry -> Exc string.


(** X10. POST /api/expenses answers 400 exactly when the owner identifier or
    the vendor is absent or empty, or the items are not an array or are an
    empty array; it then leaves the store as it was. *)
Theorem post_expense_rejects_exactly_invalid (s : S) (now : Z)
    (random : nat -> N) (vendor googleId : option string)
    (items : option (list Expense.item)) :
  (fst (post_expense s now random vendor items googleId)
   = Responded (Response 400 (JsonError "Invalid expense data")) <->
   present googleId = None \/ present vendor = None \/
   items = None \/ items = Some []) /\
  (fst (post_expense s now random vendor items googleId)
   = Responded (Response 400 (JsonError "Invalid expense data")) ->
   snd (post_expense s now random vendor items googleId) = s).
Proof.
  unfold post_expense.
  destruct (present googleId) as [g|]; [|split; [split|]; auto].
  destruct (present vendor) as [v|]; [|split; [split|]; auto].
  destruct items as [[|item items]|]; [split; [split|]; auto| |
                                        split; [split|]; auto].
  destruct (Receipt_save s _) as [s'|e]; cbn [bind try_catch_write fst snd].
  - split; [split|]; try discriminate.
    intros [H|[H|[H|H]]]; discriminate.
  - split; [split|]; try discriminate.
    intros [H|[H|[H|H]]]; discriminate.
Qed.

(** X11. A failure of the store is answered 500 by every handler that has a
    [try] block, with the handler's own message, and a handler that writes
    leaves the store as it was. *)
Theorem store_failures_are_answered_500 (s : S) (now : Z)
    (random : nat -> N) (g vendor : string) (req_file : option file)
    (parsed : receipt_data) (item : Expense.item)
    (items : list Expense.item) (req_body : User.draft)
    (update : User.patch) :
  g <> "" -> vendor <> "" ->
  (forall q, exists e, Receipt_find s q = Throw e) ->
  (forall r, exists e, Receipt_save s r = Throw e) ->
  (forall i, exists e, User_findOne s i = Throw e) ->
  (forall i p, exists e, User_findOneAndUpdate s now i p = Throw e) ->
  handleReceiptUpload req_file = Ok parsed ->
  upload handleReceiptUpload s (Some g) req_file
  = (Responded (Response 500 (Text "Error processing receipt")), s) /\
  spending_summary s now (Some g)
  = Responded (Response 500 (Text "Error generating summary")) /\
  get_receipts s (Some g)
  = Responded (Response 500 (Text "Error fetching receipts")) /\
  post_expense s now random (Some vendor) (Some (item :: items)) (Some g)
  = (Responded (Response 500 (JsonError "Failed to save expense")), s) /\
  put_user s now g update
  = (Responded (Response 500 (Text "Server error")), s) /\
  create_user s now req_body
  = (Responded (Response 500 (JsonError "Internal server error")), s) /\
  get_user s g
  = Responded (Response 500 (JsonError "Internal server error")) /\
  ai_summary generateAISpendingSummary s now (Some g)
  = Responded (Response 500 (JsonError "Failed to generate AI summary")).
Proof.
  intros Hg Hv Hfind Hsave Hone Hupd Hparse.
  assert (Hpg : present (Some g) = Some g)
    by (destruct g; [congruence|reflexivity]).
  assert (Hpv : present (Some vendor) = Some vendor)
    by (destruct vendor; [congruence|reflexivity]).
  unfold upload, spending_summary, get_receipts, post_expense, put_user,
    create_user, get_user, ai_summary.
  rewrite Hpg, Hpv, Hparse. cbn [bind].
  repeat split.
  - now destruct (Hsave (Receipt.Make g (rd_receiptId parsed)
                  (rd_vendor parsed) (rd_date parsed) (rd_items parsed)))
      as [e ->].
  - now destruct (Hfind (Query (Some g) (Some (days_before now 30))))
      as [e ->].
  - now destruct (Hfind (Query (Some g) None)) as [e ->].
  - now destruct (Hsave (Receipt.Make g (Some (toString (random 0%nat)))
                  (Some vendor) (Some now)
                  (Expense.map_items random 1 (item :: items))))
      as [e ->].
  - now destruct (Hupd g update) as [e ->].
  - now destruct (Hone (User.d_googleId req_body)) as [e ->].
  - now destruct (Hone (Some g)) as [e ->].
  - now destruct (Hfind (Query (Some g) (Some (days_before now 30))))
      as [e ->].
Qed.

(** X12. When the image parser fails, POST /upload answers 500 and nothing
    is saved, whatever the store; when the text generator fails,
    GET /api/ai-summary answers 500. *)
Theorem adapter_failures_are_answered_500 (s : S) (now : Z) (g : string)
    (req_file : option file) (receipts : list Receipt.t) (e e' : exn) :
  g <> "" ->
  handleReceiptUpload req_file = Throw e ->
  Receipt_find s (Query (Some g) (Some (days_before now 30))) = Ok receipts ->
  generateAISpendingSummary (AiSummary.receiptSummary receipts) = Throw e' ->
  upload handleReceiptUpload s (Some g) req_file
  = (Responded (Response 500 (Text "Error processing receipt")), s) /\
  ai_summary generateAISpendingSummary s now (Some g)
  = Responded (Response 500 (JsonError "Failed to generate AI summary")).
Proof.
  intros Hg Hparse Hfind Hgen.
  assert (Hpg : present (Some g) = Some g)
    by (destruct g; [congruence|reflexivity]).
  unfold upload, ai_summary. rewrite Hpg, Hparse, Hfind. cbn [bind].
  rewrite Hgen. split; reflexivity.
Qed.

End Answers.


Lemma store_failures_are_answered_500_witness :
  create_user unreachable_store 1000 first_signup
  = (Responded (Response 500 (JsonError "Internal server error")),
     unreachable_store) /\
  get_user unreachable_store "u1"
  = Responded (Response 500 (JsonError "Internal server error")).
Proof.
  destruct (store_failures_are_answered_500 unit blank_parser
              failing_generator unreachable_store 1000 (fun _ => 7%N)
              "u1" "Shop" None (ReceiptData None None None []) refund_item []
              first_signup
              (User.Patch None None None None None None None None None None
                 None None))
    as (_ & _ & _ & _ & _ & Hcreate & Hget & _).
  - discriminate.
  - discriminate.
  - intros q. eexists. reflexivity.
  - intros r. eexists. reflexivity.
  - intros i. eexists. reflexivity.
  - intros i p. eexists. reflexivity.
  - reflexivity.
  - split; assumption.
Defined.

Lemma adapter_failures_are_answered_500_witness :
  upload failing_parser peers_store (Some "u1") None
  = (Responded (Response 500 (Text "Error processing receipt")),
     peers_store) /\
  ai_summary failing_generator peers_store 6000 (Some "u1")
  = Responded (Response 500 (JsonError "Failed to generate AI summary")).
Proof.
  apply (adapter_failures_are_answered_500 unit failing_parser
           failing_generator peers_store 6000 "u1" None
           [dated (receipt_of "u1" [line (Some "Food") 100])]
           (AdapterError "no structured data") (AdapterError "no summary")).
  - discriminate.
  - reflexivity.
  - reflexivity.
  - reflexivity.
Defined.

(** ** Saved records and profiles, on the in-memory store *)

Lemma mem_find (s : MemStore.t) q :
  MemStore.connected s = true ->
  Receipt_find s q = Ok (filter (MemStore.matches q) (MemStore.receipts s)).
Proof.
  intros Hc. cbn [Receipt_find MemStore.store]. unfold MemStore.find.
  now rewrite Hc.
Qed.

Lemma mem_save (s : MemStore.t) r :
  MemStore.connected s = true ->
  Receipt.googleId r <> "" ->
  Receipt_save s r
  = Ok (MemStore.Make true (MemStore.receipts s ++ [r]) (MemStore.users s)).
Proof.
  intros Hc Hg. cbn [Receipt_save MemStore.store].
  unfold MemStore.save_receipt. rewrite Hc.
  destruct (Receipt.googleId r); [congruence|reflexivity].
Qed.

Lemma present_nonempty g : g <> "" -> present (Some g) = Some g.
Proof. destruct g; [congruence|reflexivity]. Qed.

Lemma matches_owner g r :
  MemStore.matches (Query (Some g) None) r
  = String.eqb (Receipt.googleId r) g.
Proof. unfold MemStore.matches. simpl. apply andb_true_r. Qed.

Lemma mem_get_receipts (s : MemStore.t) g :
  MemStore.connected s = true -> g <> "" ->
  get_receipts s (Some g)
  = Responded
      (Response 200 (ReceiptList (owned_receipts g (MemStore.receipts s)))).
Proof.
  intros Hc Hg. unfold get_receipts.
  rewrite (present_nonempty g Hg), (mem_find s _ Hc). cbn [bind try_catch].
  do 3 f_equal. unfold owned_receipts. apply filter_ext.
  intros r. apply matches_owner.
Qed.

(** X13. A manual entry that passes validation is saved and listed: on a
    reachable store POST /api/expenses answers 201 with a record of the given
    owner dated at the time of the call; the record is appended to the
    stored ones, profiles are untouched, GET /api/receipts for that owner
    then lists it last, and what it lists for another owner is unchanged. *)
Theorem manual_entry_is_listed (s : MemStore.t) (now : Z)
    (random : nat -> N) (vendor g : string) (item : Expense.item)
    (items : list Expense.item) :
  MemStore.connected s = true -> g <> "" -> vendor <> "" ->
  let receipt :=
    Receipt.Make g (Some (toString (random 0%nat))) (Some vendor) (Some now)
      (Expense.map_items random 1 (item :: items)) in
  let result :=
    post_expense s now random (Some vendor) (Some (item :: items)) (Some g) in
  fst result = Responded (Response 201 (ExpenseAdded receipt)) /\
  MemStore.receipts (snd result) = (MemStore.receipts s ++ [receipt])%list /\
  MemStore.users (snd result) = MemStore.users s /\
  get_receipts (snd result) (Some g)
  = Responded
      (Response 200
         (ReceiptList
            (owned_receipts g (MemStore.receipts s) ++ [receipt])%list)) /\
  (forall h, h <> g -> h <> "" ->
     get_receipts (snd result) (Some h) = get_receipts s (Some h)).
Proof.
  intros Hc Hg Hv receipt result.
  assert (Hres : result
                 = (Responded (Response 201 (ExpenseAdded receipt)),
                    MemStore.Make true (MemStore.receipts s ++ [receipt])
                      (MemStore.users s))).
  { unfold result, post_expense.
    rewrite (present_nonempty g Hg), (present_nonempty vendor Hv).
    fold receipt. now rewrite (mem_save s receipt Hc Hg). }
  rewrite Hres. cbn [fst snd MemStore.receipts MemStore.users].
  split; [reflexivity|]. split; [reflexivity|]. split; [reflexivity|].
  split.
  - rewrite mem_get_receipts by (auto; reflexivity).
    cbn [MemStore.receipts]. unfold owned_receipts.
    rewrite filter_app. cbn [filter Receipt.googleId receipt].
    now rewrite String.eqb_refl.
  - intros h Hh Hhe.
    rewrite !mem_get_receipts by (auto; reflexivity).
    cbn [MemStore.receipts]. unfold owned_receipts.
    rewrite filter_app. cbn [filter Receipt.googleId receipt].
    apply not_eq_sym in Hh. apply String.eqb_neq in Hh. rewrite Hh.
    now rewrite app_nil_r.
Qed.

Lemma manual_entry_is_listed_witness :
  get_receipts
    (snd (post_expense peers_store 6000 (fun _ => 7%N) (Some "Shop")
            (Some [refund_item]) (Some "u2")))
    (Some "u1")
  = get_receipts peers_store (Some "u1").
Proof.
  destruct (manual_entry_is_listed peers_store 6000 (fun _ => 7%N)
              "Shop" "u2" refund_item [])
    as (_ & _ & _ & _ & H).
  - reflexivity.
  - discriminate.
  - discriminate.
  - apply H; discriminate.
Defined.

Lemma categoryTotals_keys receipts k :
  In k (keys (SpendingSummary.categoryTotals receipts)) <->
  exists item, In item (all_items receipts) /\ grouping_key item = k.
Proof.
  rewrite categoryTotals_flat. apply (fold_keys _ add_item_get).
Qed.



(** X15. An upload whose image is parsed is saved under the owner identifier
    of the request and listed: on a reachable store POST /upload answers 200
    with the parsed data, appends one record carrying those data and that
    owner, leaves the profiles untouched, and GET /api/receipts for the
    owner then lists the record last. *)
Theorem upload_is_listed (file : Type)
    (handleReceiptUpload : option file -> Exc receipt_data)
    (s : MemStore.t) (g : string) (req_file : option file)
    (parsed : receipt_data) :
  MemStore.connected s = true -> g <> "" ->
  handleReceiptUpload req_file = Ok parsed ->
  let receipt :=
    Receipt.Make g (rd_receiptId parsed) (rd_vendor parsed) (rd_date parsed)
      (rd_items parsed) in
  let result := upload handleReceiptUpload s (Some g) req_file in
  fst result = Responded (Response 200 (Uploaded parsed)) /\
  MemStore.receipts (snd result) = (MemStore.receipts s ++ [receipt])%list /\
  MemStore.users (snd result) = MemStore.users s /\
  get_receipts (snd result) (Some g)
  = Responded
      (Response 200
         (ReceiptList
            (owned_receipts g (MemStore.receipts s) ++ [receipt])%list)).
Proof.
  intros Hc Hg Hparse receipt result.
  assert (Hres : result
                 = (Responded (Response 200 (Uploaded parsed)),
                    MemStore.Make true (MemStore.receipts s ++ [receipt])
                      (MemStore.users s))).
  { unfold result, upload.
    rewrite (present_nonempty g Hg), Hparse. cbn [bind].
    fold receipt. now rewrite (mem_save s receipt Hc Hg). }
  rewrite Hres. cbn [fst snd MemStore.receipts MemStore.users].
  split; [reflexivity|]. split; [reflexivity|]. split; [reflexivity|].
  rewrite mem_get_receipts by (auto; reflexivity).
  cbn [MemStore.receipts]. unfold owned_receipts.
  rewrite filter_app. cbn [filter Receipt.googleId receipt].
  now rewrite String.eqb_refl.
Qed.

Lemma upload_is_listed_witness :
  fst (upload blank_parser peers_store (Some "u1") None)
  = Responded (Response 200 (Uploaded (ReceiptData None None None []))).
Proof.
  destruct (upload_is_listed unit blank_parser peers_store "u1" None
              (ReceiptData None None None []))
    as (H & _).
  - reflexivity.
  - discriminate.
  - reflexivity.
  - exact H.
Defined.

Lemma mem_findOne (s : MemStore.t) g :
  MemStore.connected s = true ->
  User_findOne s (Some g)
  = Ok (List.find (MemStore.owned_by g) (MemStore.users s)).
Proof.
  intros Hc. cbn [User_findOne MemStore.store]. unfold MemStore.findOne.
  now rewrite Hc.
Qed.

(** X16. On a reachable store GET /api/users/:googleId answers 404 exactly
    when no stored profile has that owner identifier, and otherwise 200 with
    a profile of that owner. *)
Theorem get_user_finds_the_owner (s : MemStore.t) (g : string) :
  MemStore.connected s = true ->
  (get_user s g = Responded (Response 404 (JsonError "User not found")) <->
   forall u, In u (MemStore.users s) -> User.googleId u <> g) /\
  ((exists u, In u (MemStore.users s) /\ User.googleId u = g) ->
   exists u, In u (MemStore.users s) /\ User.googleId u = g /\
             get_user s g = Responded (Response 200 (Profile u))).
Proof.
  intros Hc. unfold get_user. rewrite (mem_findOne s g Hc). cbn [bind].
  destruct (List.find (MemStore.owned_by g) (MemStore.users s))
    as [u|] eqn:Hf; cbn [try_catch].
  - apply find_some in Hf. destruct Hf as [Hin Ho].
    unfold MemStore.owned_by in Ho. apply String.eqb_eq in Ho.
    split.
    + split; [discriminate|]. intros H. exfalso. now apply (H u Hin).
    + intros _. now exists u.
  - split.
    + split; [|reflexivity]. intros _ u Hin Hg.
      pose proof (find_none _ _ Hf u Hin) as Hn.
      unfold MemStore.owned_by in Hn. rewrite Hg, String.eqb_refl in Hn.
      discriminate.
    + intros [u [Hin Hg]].
      pose proof (find_none _ _ Hf u Hin) as Hn.
      unfold MemStore.owned_by in Hn. rewrite Hg, String.eqb_refl in Hn.
      discriminate.
Qed.

Lemma get_user_finds_the_owner_witness :
  get_user peers_store "nobody"
  = Responded (Response 404 (JsonError "User not found")).
Proof.
  destruct (get_user_finds_the_owner peers_store "nobody" eq_refl)
    as [[_ H] _].
  apply H. intros u [<-|[]]. discriminate.
Defined.

(** X17. What POST /api/users writes, on any in-memory store: either nothing,
    or one profile appended after the stored ones, with a non-empty owner
    identifier and a non-empty email taken from the body, the other body
    fields as supplied, and both timestamps set to the time of the call;
    this profile is then the one answered with 201.  The stored records and
    the existing profiles are never changed. *)
Theorem create_user_writes (s : MemStore.t) (now : Z) (body : User.draft) :
  let result := create_user s now body in
  MemStore.receipts (snd result) = MemStore.receipts s /\
  (MemStore.users (snd result) = MemStore.users s \/
   exists g e,
     User.d_googleId body = Some g /\ g <> "" /\
     User.d_email body = Some e /\ e <> "" /\
     (forall u, In u (MemStore.users s) -> User.googleId u <> g) /\
     let user :=
       User.Make g e (User.d_firstName body) (User.d_lastName body)
         (User.d_picture body) None None None None None None None now now in
     MemStore.users (snd result) = (MemStore.users s ++ [user])%list /\
     fst result = Responded (Response 201 (Profile user))).
Proof.
  intros result. unfold result, create_user.
  destruct s as [c rs us]. cbn [User_findOne User_save MemStore.store].
  unfold MemStore.findOne, MemStore.save_user.
  cbn [MemStore.connected MemStore.users MemStore.receipts].
  destruct c; [|split; [reflexivity|now left]].
  destruct (User.d_googleId body) as [g|] eqn:Hg;
    cbn [bind try_catch_write]; [|split; [reflexivity|now left]].
  destruct (List.find (MemStore.owned_by g) us) as [u|] eqn:Hfind;
    [split; [reflexivity|now left]|].
  destruct (present (Some g)) as [g'|] eqn:Hpg;
    [|split; [reflexivity|now left]].
  destruct (present (User.d_email body)) as [e|] eqn:Hpe;
    [|split; [reflexivity|now left]].
  destruct (existsb (MemStore.owned_by g') us);
    [split; [reflexivity|now left]|].
  cbn [bind snd fst MemStore.users MemStore.receipts].
  split; [reflexivity|]. right.
  pose proof (present_Some _ _ Hpg) as Hg'. injection Hg' as <-.
  pose proof (present_Some _ _ Hpe) as He.
  exists g, e. split; [reflexivity|]. split.
  { intros ->. discriminate Hpg. }
  split; [exact He|]. split.
  { intros ->. rewrite He in Hpe. discriminate Hpe. }
  split; [|split; reflexivity].
  intros u Hin Hu.
  pose proof (find_none _ _ Hfind u Hin) as Hn.
  unfold MemStore.owned_by in Hn. rewrite Hu, String.eqb_refl in Hn.
  discriminate.
Qed.

(** X18. A profile answered by POST /api/users can be read back: on any
    in-memory store, when the call has answered 201 with a profile, that
    profile carries the owner identifier of the body and
    GET /api/users/:googleId for it answers 200 with the same profile. *)
Theorem created_profile_is_found (s s1 : MemStore.t) (now : Z)
    (body : User.draft) (user : User.t) :
  create_user s now body = (Responded (Response 201 (Profile user)), s1) ->
  User.d_googleId body = Some (User.googleId user) /\
  get_user s1 (User.googleId user) = Responded (Response 200 (Profile user)).
Proof.
  unfold create_user, get_user.
  destruct s as [c rs us]. cbn [User_findOne User_save MemStore.store].
  unfold MemStore.findOne, MemStore.save_user.
  cbn [MemStore.connected MemStore.users MemStore.receipts].
  destruct c; [|discriminate].
  destruct (User.d_googleId body) as [g|] eqn:Hg;
    cbn [bind try_catch_write]; [|discriminate].
  destruct (List.find (MemStore.owned_by g) us) as [u|] eqn:Hfind.
  - intros H. injection H as <- <-.
    pose proof (find_some _ _ Hfind) as [_ Ho].
    unfold MemStore.owned_by in Ho. apply String.eqb_eq in Ho.
    rewrite Ho. split; [reflexivity|].
    cbn [MemStore.connected MemStore.users bind]. now rewrite Hfind.
  - destruct (present (Some g)) as [g'|] eqn:Hp; [|discriminate].
    destruct (present (User.d_email body)) as [e|]; [|discriminate].
    destruct (existsb (MemStore.owned_by g') us); [discriminate|].
    cbn [bind]. intros H. injection H as <- <-.
    apply present_Some in Hp. injection Hp as <-.
    cbn [User.googleId MemStore.connected MemStore.users bind].
    split; [reflexivity|].
    rewrite (find_app_None _ _ _ Hfind); [reflexivity|].
    unfold MemStore.owned_by. cbn [User.googleId]. apply String.eqb_refl.
Qed.

Lemma created_profile_is_found_witness :
  get_user (MemStore.Make true [] [first_profile]) "u1"
  = Responded (Response 200 (Profile first_profile)).
Proof.
  apply (created_profile_is_found empty_store
           (MemStore.Make true [] [first_profile]) 1000 first_signup
           first_profile).
  reflexivity.
Defined.

Lemma create_user_keeps_owners_unique_witness :
  NoDup (map User.googleId (MemStore.users peers_store)) /\
  NoDup
    (map User.googleId
       (MemStore.users
          (snd (create_user peers_store 2000
                  (User.Draft (Some "u2") (Some "bob@example.org") None None
                     None))))).
Proof.
  assert (H : NoDup (map User.googleId (MemStore.users peers_store))).
  { repeat constructor. intros []. }
  split; [exact H|].
  apply (create_user_keeps_owners_unique peers_store 2000). exact H.
Defined.

Lemma ai_summary_answer_witness :
  ai_summary counting_generator peers_store 6000 (Some "u1")
  = Responded (Response 200 (AiText "1")).
Proof.
  apply (ai_summary_answer counting_generator peers_store 6000 (Some "u1")
           "u1" [dated (receipt_of "u1" [line (Some "Food") 100])]);
    reflexivity.
Defined.


Lemma map_item_grouping_key random item :
  grouping_key (Expense.map_item random item)
  = or_string (Expense.category item) "Other (Type Category)".
Proof.
  unfold Expense.map_item, grouping_key. cbn [Receipt.category].
  now destruct (Expense.category item) as [[|c cs]|].
Qed.

Lemma map_items_keys random items : forall n k,
  (exists stored, In stored (Expense.map_items random n items) /\
                  grouping_key stored = k) <->
  (exists item, In item items /\
                or_string (Expense.category item) "Other (Type Category)"
                = k).
Proof.
  induction items as [|item items IH]; intros n k; cbn [Expense.map_items].
  - split; intros [x [[] _]].
  - split.
    + intros [stored [[<-|Hin] Hk]].
      * exists item. split; [now left|].
        now rewrite <- map_item_grouping_key with (random := random n).
      * destruct (proj1 (IH (S n) k)) as [it [Hit Hkit]];
          [now exists stored|].
        exists it. split; [now right|exact Hkit].
    + intros [it [[<-|Hin] Hk]].
      * exists (Expense.map_item (random n) item). split; [now left|].
        now rewrite map_item_grouping_key.
      * destruct (proj2 (IH (S n) k)) as [stored [Hs Hks]];
          [now exists it|].
        exists stored. split; [now right|exact Hks].
Qed.


Lemma owner_window_filter g since receipts :
  filter (MemStore.matches (Query (Some g) (Some since))) receipts
  = owned_receipts g
      (filter (MemStore.matches (Query None (Some since))) receipts).
Proof.
  unfold owned_receipts, MemStore.matches. cbn [q_googleId q_date_gte].
  induction receipts as [|r rs IH]; cbn [filter]; [reflexivity|].
  destruct (String.eqb (Receipt.googleId r) g) eqn:E;
    destruct (Receipt.date r) as [d|]; cbn [andb];
    try destruct (since <=? d)%Z; cbn [filter]; rewrite ?E, IH; reflexivity.
Qed.


